(** * Traffic intersection micro-simulation: shallow embedding of
      [self_designed_env/new_env.py] and of the fixed-time traffic light
      controllers that feed it a phase, with their verified properties.

    Numbers: Python's ints are [Z]; the coordinates, the speed and the
    metric samples, which Python holds as floats, are exact rationals [Q].
    Every property below is about comparisons, clamping ([max]/[min]) and
    counting; the concrete runs stay away from the comparison thresholds.

    The pseudo-random draws of [random.random()] are an explicit input of
    the spawn process: one value per lane and per tick. *)

From Stdlib Require Import QArith Qabs Lqa ZArith Lia.
From stdpp Require Import gmap strings list fin_maps.

(** ** Enumerations and numeric helpers *)

Inductive Direction := North | South | East | West.
Inductive LaneType := Straight | Left.

#[global] Instance Direction_eq_dec : EqDecision Direction.
Proof. solve_decision. Defined.
#[global] Instance LaneType_eq_dec : EqDecision LaneType.
Proof. solve_decision. Defined.

Definition direction_name (d : Direction) : string :=
  match d with
  | North => "north" | South => "south" | East => "east" | West => "west"
  end.

Definition lane_type_name (l : LaneType) : string :=
  match l with Straight => "straight" | Left => "left" end.

(** [a < b] on rationals, as a boolean. *)
Definition Qltb (a b : Q) : bool := negb (Qle_bool b a).

(** Python's [max(a, b)]: the first argument unless the second is
    strictly greater. *)
Definition py_max (a b : Q) : Q := if Qltb a b then b else a.

(** Python's [min(a, b)]: the first argument unless the second is
    strictly smaller. *)
Definition py_min (a b : Q) : Q := if Qltb b a then b else a.

(** ** class Vehicle *)

Module Vehicle.

Record t := mk {
  id : Z;
  direction : Direction;
  lane_type : LaneType;
  prev_x : Q;
  prev_y : Q;
  spawn_time : Z;
  waiting_time : Z;
  passed : bool;
  has_turned : bool;
  collided : bool;
  in_intersection_zone : bool;
  x : Q;
  y : Q;
  speed : Q;
  max_speed : Q;
  acceleration : Q;
  deceleration : Q
}.

(** Attribute assignments. *)
Definition set_speed (s : Q) (v : t) : t :=
  mk (id v) (direction v) (lane_type v) (prev_x v) (prev_y v) (spawn_time v)
     (waiting_time v) (passed v) (has_turned v) (collided v)
     (in_intersection_zone v) (x v) (y v) s
     (max_speed v) (acceleration v) (deceleration v).

Definition set_waiting_time (w : Z) (v : t) : t :=
  mk (id v) (direction v) (lane_type v) (prev_x v) (prev_y v) (spawn_time v)
     w (passed v) (has_turned v) (collided v)
     (in_intersection_zone v) (x v) (y v) (speed v)
     (max_speed v) (acceleration v) (deceleration v).

Definition set_in_intersection_zone (b : bool) (v : t) : t :=
  mk (id v) (direction v) (lane_type v) (prev_x v) (prev_y v) (spawn_time v)
     (waiting_time v) (passed v) (has_turned v) (collided v)
     b (x v) (y v) (speed v)
     (max_speed v) (acceleration v) (deceleration v).

Definition set_passed (b : bool) (v : t) : t :=
  mk (id v) (direction v) (lane_type v) (prev_x v) (prev_y v) (spawn_time v)
     (waiting_time v) b (has_turned v) (collided v)
     (in_intersection_zone v) (x v) (y v) (speed v)
     (max_speed v) (acceleration v) (deceleration v).

Definition set_position (nx ny : Q) (v : t) : t :=
  mk (id v) (direction v) (lane_type v) (prev_x v) (prev_y v) (spawn_time v)
     (waiting_time v) (passed v) (has_turned v) (collided v)
     (in_intersection_zone v) nx ny (speed v)
     (max_speed v) (acceleration v) (deceleration v).

Definition set_prev (px py : Q) (v : t) : t :=
  mk (id v) (direction v) (lane_type v) px py (spawn_time v)
     (waiting_time v) (passed v) (has_turned v) (collided v)
     (in_intersection_zone v) (x v) (y v) (speed v)
     (max_speed v) (acceleration v) (deceleration v).

(** The heading, the position and [has_turned], as [_turn_left] writes
    them. *)
Definition set_turn (d : Direction) (nx ny : Q) (v : t) : t :=
  mk (id v) d (lane_type v) (prev_x v) (prev_y v) (spawn_time v)
     (waiting_time v) (passed v) true (collided v)
     (in_intersection_zone v) nx ny (speed v)
     (max_speed v) (acceleration v) (deceleration v).

(** [set_initial_position]: the spawn coordinate [(x, y)] of a lane.
    Any lane type other than straight takes the left-lane offset. *)
Definition set_initial_position (d : Direction) (l : LaneType) : Q * Q :=
  match d with
  | North => (match l with Straight => -7 | Left => -20 end, -80)
  | South => (match l with Straight => 7 | Left => 20 end, 80)
  | East => (-80, match l with Straight => -7 | Left => -20 end)
  | West => (80, match l with Straight => 7 | Left => 20 end)
  end%Q.

(** [__init__] *)
Definition init (vehicle_id : Z) (d : Direction) (l : LaneType)
    (spawn_time : Z) : t :=
  let p := set_initial_position d l in
  mk vehicle_id d l (fst p) (snd p) spawn_time 0 false false false false
     (fst p) (snd p) 1.5 2.5 0.1 0.3.

(** [approaching_intersection] *)
Definition approaching_intersection (v : t) : bool :=
  match direction v with
  | North => Qltb (y v) (-10)
  | South => Qltb 10 (y v)
  | East => Qltb (x v) (-10)
  | West => Qltb 10 (x v)
  end.

(** [in_intersection] *)
Definition in_intersection (v : t) : bool :=
  Qle_bool (Qabs (x v)) 30 && Qle_bool (Qabs (y v)) 30.

Definition north_south (d : Direction) : bool :=
  match d with North | South => true | _ => false end.

Definition east_west (d : Direction) : bool :=
  match d with East | West => true | _ => false end.

Definition is_straight (l : LaneType) : bool :=
  match l with Straight => true | Left => false end.

Definition is_left (l : LaneType) : bool :=
  match l with Left => true | Straight => false end.

(** [should_wait] *)
Definition should_wait (v : t) (current_phase : Z) : bool :=
  if negb (approaching_intersection v) then false
  else if (current_phase =? 0)%Z then
    negb (north_south (direction v) && is_straight (lane_type v))
  else if (current_phase =? 1)%Z then
    negb (east_west (direction v) && is_straight (lane_type v))
  else if (current_phase =? 2)%Z then
    negb (north_south (direction v) && is_left (lane_type v))
  else if (current_phase =? 3)%Z then
    negb (east_west (direction v) && is_left (lane_type v))
  else true.

(** [_should_turn_left_now], with [center_tol = 6] and [lane_tol = 4]. *)
Definition _should_turn_left_now (v : t) : bool :=
  if negb (is_left (lane_type v)) || has_turned v then false
  else if negb (Qle_bool (Qabs (x v)) 30 && Qle_bool (Qabs (y v)) 30)
  then false
  else match direction v with
       | North => Qltb (Qabs (x v + 20)) 4 && Qle_bool (-6) (y v)
       | South => Qltb (Qabs (x v - 20)) 4 && Qle_bool (y v) 6
       | East => Qltb (Qabs (y v + 20)) 4 && Qle_bool (-6) (x v)
       | West => Qltb (Qabs (y v - 20)) 4 && Qle_bool (x v) 6
       end.

(** [_turn_left] *)
Definition _turn_left (v : t) : t :=
  match direction v with
  | North => set_turn West (-5) 20 v
  | South => set_turn East 5 (-20) v
  | East => set_turn North (-20) (-5) v
  | West => set_turn South 20 5 v
  end.

(** [move]: the previous position is overwritten after the move. *)
Definition move (v : t) : t :=
  let v1 :=
    match direction v with
    | North => set_position (x v) (y v + speed v) v
    | South => set_position (x v) (y v - speed v) v
    | East => set_position (x v + speed v) (y v) v
    | West => set_position (x v - speed v) (y v) v
    end in
  set_prev (x v1) (y v1) v1.

(** [check_passed] *)
Definition check_passed (v : t) : t :=
  match direction v with
  | North => if Qltb 60 (y v) then set_passed true v else v
  | South => if Qltb (y v) (-60) then set_passed true v else v
  | East => if Qltb 60 (x v) then set_passed true v else v
  | West => if Qltb (x v) (-60) then set_passed true v else v
  end.

(** [_crossed_centerline]: the chained comparisons [prev < 0 <= cur]
    and [prev > 0 >= cur]. *)
Definition _crossed_centerline (v : t) : bool :=
  match direction v with
  | North => Qltb (prev_y v) 0 && Qle_bool 0 (y v)
  | South => Qltb 0 (prev_y v) && Qle_bool (y v) 0
  | East => Qltb (prev_x v) 0 && Qle_bool 0 (x v)
  | West => Qltb 0 (prev_x v) && Qle_bool (x v) 0
  end.

(** The speed and waiting-time part of [update], given the value of
    [should_wait] computed before it. *)
Definition adjust_speed (sw : bool) (v : t) : t :=
  if sw then
    if approaching_intersection v then
      set_waiting_time (waiting_time v + 1)
        (set_speed (py_max 0 (speed v - deceleration v)) v)
    else
      set_speed (py_min (max_speed v) (speed v + acceleration v)) v
  else
    set_speed (py_min (max_speed v) (speed v + acceleration v)) v.

(** [update] *)
Definition update (current_phase : Z) (intersection_clear : bool)
    (v : t) : t :=
  if passed v || collided v then v
  else
    let v1 := set_in_intersection_zone (in_intersection v) v in
    let sw := should_wait v1 current_phase in
    let v2 := adjust_speed sw v1 in
    let v3 := if negb sw && _should_turn_left_now v2
              then _turn_left v2 else v2 in
    check_passed (move v3).

End Vehicle.

(** ** The per-vehicle snapshot handed to the metrics collector *)

Module VehicleData.

Record t := mk {
  x : Q;
  y : Q;
  direction : Direction;
  lane_type : LaneType;
  waiting_time : Z;
  speed : Q;
  passed : bool
}.

End VehicleData.

(** [np.mean] of a non-empty list. *)
Definition mean (l : list Q) : Q :=
  (foldr Qplus 0 l / inject_Z (Z.of_nat (length l)))%Q.

(** [deque(maxlen=n).append]: the oldest sample is dropped on overflow. *)
Definition deque_append {A} (maxlen : nat) (q : list A) (a : A) : list A :=
  let q' := q ++ [a] in
  if (maxlen <? length q')%nat then tail q' else q'.

(** ** class TrafficMetricsCollector *)

Module TrafficMetricsCollector.

Record t := mk {
  waiting_times : list Q;
  throughputs : list Q;
  queue_lengths : gmap string (list Z);
  total_passed_vehicles : Z;
  collision_count : Z;
  total_steps : Z
}.

Definition lane_keys : list string :=
  [ "north_straight"; "north_left"; "south_straight"; "south_left";
    "east_straight"; "east_left"; "west_straight"; "west_left" ].

(** [reset]; [__init__] only calls it. *)
Definition reset : t :=
  mk [] [] (list_to_map ((λ k, (k, [])) <$> lane_keys)) 0 0 0.

Definition init : t := reset.

(** [is_in_waiting_zone] *)
Definition is_in_waiting_zone (vd : VehicleData.t) : bool :=
  match VehicleData.direction vd with
  | North => Qltb (-40) (VehicleData.y vd) && Qltb (VehicleData.y vd) (-15)
  | South => Qltb 15 (VehicleData.y vd) && Qltb (VehicleData.y vd) 40
  | East => Qltb (-40) (VehicleData.x vd) && Qltb (VehicleData.x vd) (-15)
  | West => Qltb 15 (VehicleData.x vd) && Qltb (VehicleData.x vd) 40
  end.

(** The f-string [f"{direction}_{lane_type}"]. *)
Definition lane_key (d : Direction) (l : LaneType) : string :=
  direction_name d +:+ "_" +:+ lane_type_name l.

(** One iteration of the loop over [vehicles_info.items()]; the
    accumulator is [(queue_counts, current_waiting_times)]. *)
Definition visit (vd : VehicleData.t) (acc : gmap string Z * list Z)
    : gmap string Z * list Z :=
  if VehicleData.passed vd then acc
  else
    let wts := acc.2 ++ [VehicleData.waiting_time vd] in
    if Qltb (VehicleData.speed vd) 0.5 && is_in_waiting_zone vd then
      (alter Z.succ
         (lane_key (VehicleData.direction vd) (VehicleData.lane_type vd))
         acc.1, wts)
    else (acc.1, wts).

(** [update_metrics] *)
Definition update_metrics (vehicles_info : gmap Z VehicleData.t)
    (current_phase current_step passed_this_step total_passed : Z)
    (m : t) : t :=
  let acc :=
    map_fold (λ _ vd acc, visit vd acc)
      ((λ _, 0%Z) <$> queue_lengths m, []) vehicles_info in
  let queue_counts := acc.1 in
  let current_waiting_times := acc.2 in
  let queue_lengths' :=
    map_imap (λ k q,
      Some (match queue_counts !! k with
            | Some c => deque_append 100 q c
            | None => q
            end)) (queue_lengths m) in
  let waiting_times' :=
    match current_waiting_times with
    | [] => waiting_times m ++ [0%Q]
    | _ => waiting_times m ++ [mean (inject_Z <$> current_waiting_times)]
    end in
  let throughputs' :=
    if (0 <? current_step)%Z then
      throughputs m ++ [(inject_Z total_passed / inject_Z current_step)%Q]
    else throughputs m in
  mk waiting_times' throughputs' queue_lengths' total_passed 
     (collision_count m) current_step.

(** The dictionary returned by [get_metrics]. *)
Record metrics := mk_metrics {
  average_waiting_time : Q;
  metrics_queue_lengths : gmap string Q;
  throughput : Q;
  total_vehicles_passed : Z;
  current_vehicles : Z
}.

(** [get_metrics].  The eight lane keys are present in every collector
    built by [reset] and [update_metrics]; a missing key reads as the
    empty window. *)
Definition get_metrics (m : t) : metrics :=
  mk_metrics
    (match waiting_times m with [] => 0%Q | l => mean l end)
    (list_to_map
       ((λ k, (k, match default [] (queue_lengths m !! k) with
                  | [] => 0%Q
                  | q => mean (inject_Z <$> q)
                  end)) <$> lane_keys))
    (match last (throughputs m) with Some r => r | None => 0%Q end)
    (total_passed_vehicles m)
    (Z.of_nat (length (waiting_times m))).

End TrafficMetricsCollector.

(** ** class TrafficSimulation *)

Module TrafficSimulation.

Record t := mk {
  vehicles : gmap Z Vehicle.t;
  next_vehicle_id : Z;
  current_step : Z;
  metrics_collector : TrafficMetricsCollector.t;
  spawn_probabilities : Direction → LaneType → Q;
  total_passed_vehicles : Z
}.

Definition default_spawn_probabilities (d : Direction) (l : LaneType) : Q :=
  match l with Straight => 0.04 | Left => 0.03 end.

(** [__init__] *)
Definition init : t :=
  mk ∅ 0 0 TrafficMetricsCollector.init default_spawn_probabilities 0.

(** [reset]: the spawn probabilities are not touched. *)
Definition reset (s : t) : t :=
  mk ∅ 0 0 TrafficMetricsCollector.reset (spawn_probabilities s) 0.

(** The filter of [spawn_vehicles]: a vehicle counted for a lane. *)
Definition in_lane (d : Direction) (l : LaneType) (v : Vehicle.t) : bool :=
  bool_decide (Vehicle.direction v = d)
  && bool_decide (Vehicle.lane_type v = l)
  && negb (Vehicle.passed v) && negb (Vehicle.collided v).

(** [len(lane_vehicles)] *)
Definition lane_count (d : Direction) (l : LaneType)
    (vs : gmap Z Vehicle.t) : nat :=
  size (filter (λ kv, in_lane d l kv.2 = true) vs).

(** [add_vehicle] *)
Definition add_vehicle (d : Direction) (l : LaneType) (s : t) : t :=
  mk (<[next_vehicle_id s := Vehicle.init (next_vehicle_id s) d l
                               (current_step s)]> (vehicles s))
     (next_vehicle_id s + 1) (current_step s) (metrics_collector s)
     (spawn_probabilities s) (total_passed_vehicles s).

(** The lanes in the order of the two nested loops. *)
Definition lanes : list (Direction * LaneType) :=
  [ (North, Straight); (North, Left); (South, Straight); (South, Left);
    (East, Straight); (East, Left); (West, Straight); (West, Left) ].

(** The body of the loops of [spawn_vehicles] for one lane; [r] is the
    value of [random.random()] drawn for it. *)
Definition spawn_lane (r : Q) (d : Direction) (l : LaneType) (s : t) : t :=
  if Qltb r (spawn_probabilities s d l) then
    if (lane_count d l (vehicles s) <? 4)%nat then add_vehicle d l s
    else s
  else s.

(** [spawn_vehicles] *)
Definition spawn_vehicles (draws : Direction → LaneType → Q) (s : t) : t :=
  foldl (λ s dl, spawn_lane (draws dl.1 dl.2) dl.1 dl.2 s) s lanes.

(** The entry of [vehicles_info] built by [collect_metrics]. *)
Definition snapshot (v : Vehicle.t) : VehicleData.t :=
  VehicleData.mk (Vehicle.x v) (Vehicle.y v) (Vehicle.direction v)
    (Vehicle.lane_type v) (Vehicle.waiting_time v) (Vehicle.speed v)
    (Vehicle.passed v).

(** [collect_metrics] *)
Definition collect_metrics (current_phase passed_this_step : Z) (s : t)
    : t :=
  mk (vehicles s) (next_vehicle_id s) (current_step s)
     (TrafficMetricsCollector.update_metrics (snapshot <$> vehicles s)
        current_phase (current_step s) passed_this_step
        (total_passed_vehicles s) (metrics_collector s))
     (spawn_probabilities s) (total_passed_vehicles s).

(** The first two statements of [step]: the tick counter is advanced
    and the spawn process runs. *)
Definition after_spawn (draws : Direction → LaneType → Q) (s : t) : t :=
  spawn_vehicles draws
    (mk (vehicles s) (next_vehicle_id s) (current_step s + 1)
        (metrics_collector s) (spawn_probabilities s)
        (total_passed_vehicles s)).

(** The vehicle map after the update loop of [step]. *)
Definition updated_vehicles (current_phase : Z) (s : t)
    : gmap Z Vehicle.t :=
  Vehicle.update current_phase true <$> vehicles s.

(** [vehicles_to_remove], collected by the update loop. *)
Definition vehicles_to_remove (vs : gmap Z Vehicle.t) : list Z :=
  (map_to_list (filter (λ kv, Vehicle.passed kv.2 = true) vs)).*1.

(** [step] *)
Definition step (current_phase : Z) (draws : Direction → LaneType → Q)
    (s : t) : t :=
  let s1 := after_spawn draws s in
  let vs := updated_vehicles current_phase s1 in
  let to_remove := vehicles_to_remove vs in
  let passed_count := Z.of_nat (length to_remove) in
  let vs' := foldr delete vs to_remove in
  collect_metrics current_phase passed_count
    (mk vs' (next_vehicle_id s1) (current_step s1) (metrics_collector s1)
        (spawn_probabilities s1) (total_passed_vehicles s1 + passed_count)).

(** [get_observation]: the values of the map. *)
Definition get_observation (s : t) : list Vehicle.t :=
  (map_to_list (vehicles s)).*2.

(** [get_metrics] *)
Definition get_metrics (s : t) : TrafficMetricsCollector.metrics :=
  TrafficMetricsCollector.get_metrics (metrics_collector s).

(** What a caller does to a simulation. *)
Inductive call :=
| Step (current_phase : Z) (draws : Direction → LaneType → Q)
| Reset.

Definition exec (s : t) (c : call) : t :=
  match c with
  | Step current_phase draws => step current_phase draws s
  | Reset => reset s
  end.

(** The state after a sequence of calls. *)
Definition run (cs : list call) (s : t) : t := foldl exec s cs.

End TrafficSimulation.

(** ** Lifetimes and the readings of the specification *)

(** The successive calls to [update] a vehicle receives: the phase and
    the [intersection_clear] argument of each. *)
Definition updates (calls : list (Z * bool)) (v : Vehicle.t) : Vehicle.t :=
  foldl (λ v c, Vehicle.update c.1 c.2 v) v calls.

(** The states a vehicle goes through, the first one included. *)
Fixpoint history (calls : list (Z * bool)) (v : Vehicle.t)
    : list Vehicle.t :=
  match calls with
  | [] => [v]
  | c :: calls' => v :: history calls' (Vehicle.update c.1 c.2 v)
  end.

(** How often [has_turned] goes from [a] to [b] between two consecutive
    states. *)
Fixpoint transitions (a b : bool) (h : list Vehicle.t) : nat :=
  match h with
  | v :: ((w :: _) as h') =>
      (if bool_decide (Vehicle.has_turned v = a)
          && bool_decide (Vehicle.has_turned w = b) then 1 else 0)
      + transitions a b h'
  | _ => 0
  end.

(** The right-of-way table of the specification: the class of lanes that
    need not wait in a phase; no lane for an unrecognized phase. *)
Definition right_of_way (phase : Z) (d : Direction) (l : LaneType) : bool :=
  match phase with
  | 0%Z => Vehicle.north_south d && Vehicle.is_straight l
  | 1%Z => Vehicle.east_west d && Vehicle.is_straight l
  | 2%Z => Vehicle.north_south d && Vehicle.is_left l
  | 3%Z => Vehicle.east_west d && Vehicle.is_left l
  | _ => false
  end.

(** The specification's words "within 10 units of the intersection
    boundary on the approach side": the boundary of the intersection box
    is 30 units from the centre, and the approach side of a heading is
    the side its vehicles come from. *)
Definition within_10_of_boundary (v : Vehicle.t) : bool :=
  match Vehicle.direction v with
  | North => Qle_bool (Qabs (Vehicle.y v + 30)) 10
  | South => Qle_bool (Qabs (Vehicle.y v - 30)) 10
  | East => Qle_bool (Qabs (Vehicle.x v + 30)) 10
  | West => Qle_bool (Qabs (Vehicle.x v - 30)) 10
  end.

(** The invariant of a vehicle: speed within its bounds, non-negative
    kinematic constants, and a turned vehicle is a left-lane vehicle past
    its approach zone. *)
Definition vehicle_inv (v : Vehicle.t) : Prop :=
  (0 <= Vehicle.speed v)%Q ∧ (Vehicle.speed v <= Vehicle.max_speed v)%Q
  ∧ (0 <= Vehicle.acceleration v)%Q ∧ (0 <= Vehicle.deceleration v)%Q
  ∧ (Vehicle.has_turned v = true →
     Vehicle.lane_type v = Left
     ∧ Vehicle.approaching_intersection v = false).

(** What the specification says of a vehicle that must wait: close to
    the boundary it decelerates and its waiting time grows by one,
    farther away it accelerates and its waiting time stays. *)
Definition waits_as_specified (v : Vehicle.t) (p : Z) : Prop :=
  let v' := Vehicle.update p true v in
  if within_10_of_boundary v then
    (Vehicle.speed v' == py_max 0 (Vehicle.speed v - Vehicle.deceleration v))%Q
    ∧ Vehicle.waiting_time v' = (Vehicle.waiting_time v + 1)%Z
  else
    (Vehicle.speed v'
     == py_min (Vehicle.max_speed v)
          (Vehicle.speed v + Vehicle.acceleration v))%Q
    ∧ Vehicle.waiting_time v' = Vehicle.waiting_time v.

(** A vehicle whose [passed] flag goes from false to true in an update. *)
Definition becomes_passed (current_phase : Z) (v : Vehicle.t) : bool :=
  negb (Vehicle.passed v)
  && Vehicle.passed (Vehicle.update current_phase true v).

(** The vehicles of a lane that were spawned into it: counted for the
    lane and not turned. *)
Definition spawned_in_lane (d : Direction) (l : LaneType) (v : Vehicle.t)
    : bool :=
  TrafficSimulation.in_lane d l v && negb (Vehicle.has_turned v).

Definition spawned_lane_count (d : Direction) (l : LaneType)
    (vs : gmap Z Vehicle.t) : nat :=
  size (filter (λ kv, spawned_in_lane d l kv.2 = true) vs).

(** The vehicles of a snapshot that are active: not passed. *)
Definition active_count (vehicles_info : gmap Z VehicleData.t) : Z :=
  Z.of_nat (size (filter (λ kv, VehicleData.passed kv.2 = false)
                    vehicles_info)).

(** The invariant of a simulation: every key of the map is below the
    next identifier, no vehicle of the map has passed, only left-lane
    vehicles have turned, and no lane holds more than 4 of the vehicles
    spawned into it. *)
Definition sim_inv (s : TrafficSimulation.t) : Prop :=
  (∀ k v, TrafficSimulation.vehicles s !! k = Some v →
     (k < TrafficSimulation.next_vehicle_id s)%Z
     ∧ Vehicle.passed v = false
     ∧ (Vehicle.has_turned v = true → Vehicle.lane_type v = Left))
  ∧ (∀ d l,
       (spawned_lane_count d l (TrafficSimulation.vehicles s) ≤ 4)%nat).

(** A sequence of calls to [step]. *)
Definition steps (l : list (Z * (Direction → LaneType → Q)))
    : list TrafficSimulation.call :=
  (λ c, TrafficSimulation.Step c.1 c.2) <$> l.

(** Draws of [random.random()] used in the concrete runs: [never] makes
    no lane spawn, [only d l] makes the lane [(d, l)] spawn. *)
Definition never : Direction → LaneType → Q := λ _ _, 0.99%Q.

Definition only (d0 : Direction) (l0 : LaneType)
    : Direction → LaneType → Q :=
  λ d l, if decide (d = d0 ∧ l = l0) then 0%Q else 0.99%Q.

(** Only the lanes [(North, Left)] and [(West, Left)] spawn. *)
Definition north_left_and_west_left : Direction → LaneType → Q :=
  λ d l, match d, l with
         | North, Left | West, Left => 0%Q
         | _, _ => 0.99%Q
         end.

(** A run under phase 2 (north-south left turns): tick 1 spawns one
    north-left and one west-left vehicle, ticks 2 to 4 one more
    west-left vehicle each, and [n] ticks without a spawn follow. *)
Definition left_turn_run (n : nat) : list TrafficSimulation.call :=
  TrafficSimulation.Step 2 north_left_and_west_left
  :: replicate 3 (TrafficSimulation.Step 2 (only West Left))
  ++ replicate n (TrafficSimulation.Step 2 never).

(** A run under phase 0: tick 1 spawns one north-straight vehicle, and
    [n] ticks without a spawn follow. *)
Definition straight_run (n : nat) : list TrafficSimulation.call :=
  TrafficSimulation.Step 0 (only North Straight)
  :: replicate n (TrafficSimulation.Step 0 never).

(** ** Lane geometry *)

(** The coordinate across the heading: [x] for a north- or south-bound
    vehicle, [y] for an east- or west-bound one. *)
Definition lateral (d : Direction) (px py : Q) : Q :=
  match d with North | South => px | East | West => py end.

(** The lateral coordinate of the spawn point of a lane. *)
Definition lane_offset (d : Direction) (l : LaneType) : Q :=
  lateral d (Vehicle.set_initial_position d l).1
            (Vehicle.set_initial_position d l).2.

(** The test of [check_passed]: beyond 60 units on the far side. *)
Definition beyond_exit (v : Vehicle.t) : bool :=
  match Vehicle.direction v with
  | North => Qltb 60 (Vehicle.y v)
  | South => Qltb (Vehicle.y v) (-60)
  | East => Qltb 60 (Vehicle.x v)
  | West => Qltb (Vehicle.x v) (-60)
  end.

(** What holds of a vehicle constructed for the lane [(d0, l0)] through
    all its updates. *)
Definition lifetime_inv (d0 : Direction) (l0 : LaneType) (v : Vehicle.t)
    : Prop :=
  Vehicle.prev_x v = Vehicle.x v ∧ Vehicle.prev_y v = Vehicle.y v
  ∧ Vehicle.collided v = false
  ∧ Vehicle.lane_type v = l0
  ∧ (Vehicle.has_turned v = false → Vehicle.direction v = d0)
  ∧ lateral (Vehicle.direction v) (Vehicle.x v) (Vehicle.y v)
    = lane_offset (Vehicle.direction v) (Vehicle.lane_type v)
  ∧ Vehicle.passed v = beyond_exit v.

(** ** Bookkeeping of the simulation *)

(** The number of [step] calls since the last [reset]. *)
Definition ticks (cs : list TrafficSimulation.call) : Z :=
  foldl (λ n c, match c with
                | TrafficSimulation.Step _ _ => (n + 1)%Z
                | TrafficSimulation.Reset => 0%Z
                end) 0%Z cs.

(** The vehicles of the map and the counters: every vehicle sits under
    its own identifier, was spawned at a tick between 1 and the current
    one and is not collided; every identifier handed out is in the map
    or counted as passed. *)
Definition fleet_inv (s : TrafficSimulation.t) : Prop :=
  (∀ k v, TrafficSimulation.vehicles s !! k = Some v →
     Vehicle.id v = k ∧ (0 ≤ k)%Z
     ∧ (1 ≤ Vehicle.spawn_time v ≤ TrafficSimulation.current_step s)%Z
     ∧ Vehicle.collided v = false)
  ∧ TrafficSimulation.next_vehicle_id s
    = (Z.of_nat (size (TrafficSimulation.vehicles s))
       + TrafficSimulation.total_passed_vehicles s)%Z
  ∧ (0 ≤ TrafficSimulation.total_passed_vehicles s)%Z.

(** The metrics collector mirrors the counters of the simulation. *)
Definition mirror_inv (s : TrafficSimulation.t) : Prop :=
  TrafficMetricsCollector.total_steps (TrafficSimulation.metrics_collector s)
  = TrafficSimulation.current_step s
  ∧ TrafficMetricsCollector.total_passed_vehicles
      (TrafficSimulation.metrics_collector s)
    = TrafficSimulation.total_passed_vehicles s
  ∧ Z.of_nat (length (TrafficMetricsCollector.waiting_times
                        (TrafficSimulation.metrics_collector s)))
    = TrafficSimulation.current_step s
  ∧ TrafficMetricsCollector.collision_count
      (TrafficSimulation.metrics_collector s) = 0%Z.

(** ** Readings of the metrics *)

(** The arguments of one call to [update_metrics]. *)
Record metrics_call := mk_metrics_call {
  call_vehicles_info : gmap Z VehicleData.t;
  call_current_phase : Z;
  call_current_step : Z;
  call_passed_this_step : Z;
  call_total_passed : Z
}.

(** A collector after a sequence of calls to [update_metrics]. *)
Definition metrics_run (calls : list metrics_call)
    (m : TrafficMetricsCollector.t) : TrafficMetricsCollector.t :=
  foldl (λ m c,
           TrafficMetricsCollector.update_metrics (call_vehicles_info c)
             (call_current_phase c) (call_current_step c)
             (call_passed_this_step c) (call_total_passed c) m)
        m calls.

(** A snapshot entry that [update_metrics] counts in the queue of the
    lane with key [key]: not passed, slower than 0.5, in the waiting
    zone, and of that lane. *)
Definition queued (key : string) (vd : VehicleData.t) : bool :=
  negb (VehicleData.passed vd)
  && (Qltb (VehicleData.speed vd) 0.5
      && TrafficMetricsCollector.is_in_waiting_zone vd)
  && bool_decide
       (TrafficMetricsCollector.lane_key (VehicleData.direction vd)
          (VehicleData.lane_type vd) = key).

Definition queue_count (key : string) (vehicles_info : gmap Z VehicleData.t)
    : Z :=
  Z.of_nat (size (filter (λ kv, queued key kv.2 = true) vehicles_info)).

(** A simulation without vehicles: nothing spawned, nothing passed, and
    only zero samples recorded. *)
Definition quiet_inv (s : TrafficSimulation.t) : Prop :=
  TrafficSimulation.vehicles s = ∅
  ∧ TrafficSimulation.next_vehicle_id s = 0%Z
  ∧ TrafficSimulation.total_passed_vehicles s = 0%Z
  ∧ TrafficSimulation.spawn_probabilities s
    = TrafficSimulation.default_spawn_probabilities
  ∧ Forall (λ w, (w == 0)%Q)
      (TrafficMetricsCollector.waiting_times
         (TrafficSimulation.metrics_collector s))
  ∧ Forall (λ r, (r == 0)%Q)
      (TrafficMetricsCollector.throughputs
         (TrafficSimulation.metrics_collector s)).

(** ** The fixed-time traffic light controllers *)

(** Python's [l[i]]: a negative index counts from the end; [None] stands
    for an [IndexError]. *)
Definition py_index {A : Type} (l : list A) (i : Z) : option A :=
  if (0 <=? i)%Z then l !! Z.to_nat i
  else if (- Z.of_nat (length l) <=? i)%Z
       then l !! Z.to_nat (Z.of_nat (length l) + i)
       else None.

(** [fixedtime_controller.py], class FixedTimeTrafficLight.  A call
    returns the state it leaves and its result; the result [None] stands
    for a raised exception, which leaves the assignments made before it.
    The text printed on a phase change is not modelled, only the lookup
    of the description it prints. *)
Module FixedTimeTrafficLight.

Record t := mk {
  phase_durations : list Z;
  num_phases : Z;
  current_phase : Z;
  phase_timer : Z
}.

Definition phase_descriptions : list string :=
  [ "North-South Straight Green"; "East-West Straight Green";
    "North-South Left Turn Green"; "East-West Left Turn Green" ].

Definition default_phase_durations : list Z := [60; 60; 40; 40]%Z.

(** [__init__] *)
Definition init (phase_durations : list Z) : t :=
  mk phase_durations (Z.of_nat (length phase_durations)) 0 0.

(** [step] *)
Definition step (c : t) : t * option Z :=
  let c1 := mk (phase_durations c) (num_phases c) (current_phase c)
               (phase_timer c + 1) in
  match py_index (phase_durations c1) (current_phase c1) with
  | None => (c1, None)
  | Some d =>
      if (d <=? phase_timer c1)%Z then
        if (num_phases c1 =? 0)%Z then (c1, None)
        else
          let c2 := mk (phase_durations c1) (num_phases c1)
                       ((current_phase c1 + 1) `mod` num_phases c1) 0 in
          match py_index phase_descriptions (current_phase c2) with
          | None => (c2, None)
          | Some _ => (c2, Some (current_phase c2))
          end
      else (c1, Some (current_phase c1))
  end.

(** The dictionary returned by [get_status]. *)
Record status := mk_status {
  status_current_phase : Z;
  phase_description : string;
  remaining_time : Z
}.

(** [get_status] *)
Definition get_status (c : t) : option status :=
  match py_index phase_descriptions (current_phase c) with
  | None => None
  | Some description =>
      match py_index (phase_durations c) (current_phase c) with
      | None => None
      | Some d =>
          Some (mk_status (current_phase c) description (d - phase_timer c))
      end
  end.

(** [reset] *)
Definition reset (c : t) : t :=
  mk (phase_durations c) (num_phases c) 0 0.

(** [n] calls to [step], with the results they return. *)
Fixpoint run (n : nat) (c : t) : t * list (option Z) :=
  match n with
  | O => (c, [])
  | S n' =>
      let r := step c in
      let r' := run n' r.1 in
      (r'.1, r.2 :: r'.2)
  end.

End FixedTimeTrafficLight.

(** [FixedTime_basic.py], class FixedTimingTrafficLight: the same
    controller with a step counter and a progress ratio. *)
Module FixedTimingTrafficLight.

Record t := mk {
  phase_durations : list Z;
  num_phases : Z;
  current_phase : Z;
  phase_timer : Z;
  total_steps : Z
}.

Definition phase_descriptions : list string :=
  [ "North-south direction straight green light";
    "East-west direction straight green light";
    "Green light for left turns from north and south";
    "Green light for left turns from east and west" ].

Definition default_phase_durations : list Z := [30; 30; 20; 20]%Z.

(** [__init__] *)
Definition init (phase_durations : list Z) : t :=
  mk phase_durations (Z.of_nat (length phase_durations)) 0 0 0.

(** [step] *)
Definition step (c : t) : t * option Z :=
  let c1 := mk (phase_durations c) (num_phases c) (current_phase c)
               (phase_timer c + 1) (total_steps c + 1) in
  match py_index (phase_durations c1) (current_phase c1) with
  | None => (c1, None)
  | Some d =>
      if (d <=? phase_timer c1)%Z then
        if (num_phases c1 =? 0)%Z then (c1, None)
        else
          let c2 := mk (phase_durations c1) (num_phases c1)
                       ((current_phase c1 + 1) `mod` num_phases c1) 0
                       (total_steps c1) in
          match py_index phase_descriptions (current_phase c2) with
          | None => (c2, None)
          | Some _ => (c2, Some (current_phase c2))
          end
      else (c1, Some (current_phase c1))
  end.

Record status := mk_status {
  status_current_phase : Z;
  phase_description : string;
  progress : Q;
  remaining_time : Z;
  status_total_steps : Z
}.

(** [get_status]: the true division raises when the duration is 0. *)
Definition get_status (c : t) : option status :=
  match py_index (phase_durations c) (current_phase c) with
  | None => None
  | Some d =>
      if (d =? 0)%Z then None
      else
        match py_index phase_descriptions (current_phase c) with
        | None => None
        | Some description =>
            Some (mk_status (current_phase c) description
                    (inject_Z (phase_timer c) / inject_Z d)
                    (d - phase_timer c) (total_steps c))
        end
  end.

(** [reset] *)
Definition reset (c : t) : t :=
  mk (phase_durations c) (num_phases c) 0 0 0.

Fixpoint run (n : nat) (c : t) : t * list (option Z) :=
  match n with
  | O => (c, [])
  | S n' =>
      let r := step c in
      let r' := run n' r.1 in
      (r'.1, r.2 :: r'.2)
  end.

(** The state of a [FixedTimeTrafficLight] with the same durations,
    phase and timer. *)
Definition forget (c : t) : FixedTimeTrafficLight.t :=
  FixedTimeTrafficLight.mk (phase_durations c) (num_phases c)
    (current_phase c) (phase_timer c).

End FixedTimingTrafficLight.

(** [fixed_timing_Tianrui.py], class FixedCycleTrafficLight: the timer
    advances by [dt] and is a float. *)
Module FixedCycleTrafficLight.

Record phase := mk_phase {
  name : string;
  duration : Z;
  green_directions : list string
}.

Record t := mk {
  phases : list phase;
  num_phases : Z;
  current_phase : Z;
  phase_timer : Q
}.

(** [__init__] *)
Definition init : t :=
  let phases :=
    [ mk_phase "NS_Straight" 60 ["N"; "S"];
      mk_phase "EW_Straight" 60 ["E"; "W"];
      mk_phase "NS_Left" 40 ["N_left"; "S_left"];
      mk_phase "EW_Left" 40 ["E_left"; "W_left"] ] in
  mk phases (Z.of_nat (length phases)) 0 0.

(** [step] *)
Definition step (dt : Q) (c : t) : t * option Z :=
  let c1 := mk (phases c) (num_phases c) (current_phase c)
               (phase_timer c + dt) in
  match py_index (phases c1) (current_phase c1) with
  | None => (c1, None)
  | Some ph =>
      if Qle_bool (inject_Z (duration ph)) (phase_timer c1) then
        if (num_phases c1 =? 0)%Z then (c1, None)
        else
          let c2 := mk (phases c1) (num_phases c1)
                       ((current_phase c1 + 1) `mod` num_phases c1) 0 in
          match py_index (phases c2) (current_phase c2) with
          | None => (c2, None)
          | Some _ => (c2, Some (current_phase c2))
          end
      else (c1, Some (current_phase c1))
  end.

(** [is_green] *)
Definition is_green (direction : string) (c : t) : option bool :=
  match py_index (phases c) (current_phase c) with
  | None => None
  | Some ph => Some (bool_decide (direction ∈ green_directions ph))
  end.

(** [reset] *)
Definition reset (c : t) : t :=
  mk (phases c) (num_phases c) 0 0.

(** The calls to [step] with the given values of [dt]. *)
Fixpoint run (dts : list Q) (c : t) : t * list (option Z) :=
  match dts with
  | [] => (c, [])
  | dt :: dts' =>
      let r := step dt c in
      let r' := run dts' r.1 in
      (r'.1, r.2 :: r'.2)
  end.

End FixedCycleTrafficLight.

(** The number of ticks a phase of duration [d] lasts. *)
Definition phase_ticks (d : Z) : nat := Z.to_nat (Z.max 1 d).

(** What a [FixedTimeTrafficLight] returns when it leaves phase [i]:
    the next phase, or an exception when it has no description. *)
Definition switch_result (n i : Z) : option Z :=
  match py_index FixedTimeTrafficLight.phase_descriptions
          ((i + 1) `mod` n)%Z with
  | None => None
  | Some _ => Some ((i + 1) `mod` n)%Z
  end.

(** The results of the steps that go through the phases of durations
    [ds], the first of them being phase [i] of [n]. *)
Fixpoint cycle_results (n i : Z) (ds : list Z) : list (option Z) :=
  match ds with
  | [] => []
  | d :: ds' =>
      replicate (phase_ticks d - 1) (Some i)
      ++ switch_result n i :: cycle_results n (i + 1) ds'
  end.

(** The invariant of a [FixedTimeTrafficLight] with at most four
    phases. *)
Definition light_inv (c : FixedTimeTrafficLight.t) : Prop :=
  FixedTimeTrafficLight.num_phases c
  = Z.of_nat (length (FixedTimeTrafficLight.phase_durations c))
  ∧ (0 ≤ FixedTimeTrafficLight.current_phase c
     < FixedTimeTrafficLight.num_phases c)%Z
  ∧ (FixedTimeTrafficLight.num_phases c ≤ 4)%Z
  ∧ (0 ≤ FixedTimeTrafficLight.phase_timer c)%Z
  ∧ ∀ d, py_index (FixedTimeTrafficLight.phase_durations c)
           (FixedTimeTrafficLight.current_phase c) = Some d →
         (FixedTimeTrafficLight.phase_timer c < Z.max 1 d)%Z.

(** A [FixedCycleTrafficLight] and a [FixedTimeTrafficLight] with the
    default durations in the same phase and with the same timer. *)
Definition cycle_matches (cq : FixedCycleTrafficLight.t)
    (cz : FixedTimeTrafficLight.t) : Prop :=
  FixedCycleTrafficLight.phases cq
  = FixedCycleTrafficLight.phases FixedCycleTrafficLight.init
  ∧ FixedCycleTrafficLight.num_phases cq = 4%Z
  ∧ FixedTimeTrafficLight.phase_durations cz
    = FixedTimeTrafficLight.default_phase_durations
  ∧ FixedTimeTrafficLight.num_phases cz = 4%Z
  ∧ FixedCycleTrafficLight.current_phase cq
    = FixedTimeTrafficLight.current_phase cz
  ∧ (0 ≤ FixedTimeTrafficLight.current_phase cz < 4)%Z
  ∧ (FixedCycleTrafficLight.phase_timer cq
     == inject_Z (FixedTimeTrafficLight.phase_timer cz))%Q.

(** The invariant of a [FixedCycleTrafficLight]. *)
Definition cycle_inv (c : FixedCycleTrafficLight.t) : Prop :=
  FixedCycleTrafficLight.phases c
  = FixedCycleTrafficLight.phases FixedCycleTrafficLight.init
  ∧ FixedCycleTrafficLight.num_phases c = 4%Z
  ∧ (0 ≤ FixedCycleTrafficLight.current_phase c < 4)%Z.

(** The specification's approach zone: "within 10 units of the stop line
    on its axis", for a stop line [stop] units from the centre on the
    side the vehicle comes from. *)
Definition within_10_of_stop_line (stop : Q) (v : Vehicle.t) : bool :=
  match Vehicle.direction v with
  | North => Qle_bool (Qabs (Vehicle.y v + stop)) 10
  | South => Qle_bool (Qabs (Vehicle.y v - stop)) 10
  | East => Qle_bool (Qabs (Vehicle.x v + stop)) 10
  | West => Qle_bool (Qabs (Vehicle.x v - stop)) 10
  end.

(** What the specification says of [should_wait] with that approach
    zone: inside it, a vehicle waits exactly when its lane is not in the
    class of the phase; outside it, a vehicle never waits. *)
Definition should_wait_as_specified (stop : Q) (v : Vehicle.t) (phase : Z)
    : Prop :=
  if within_10_of_stop_line stop v then
    Vehicle.should_wait v phase
    = negb (right_of_way phase (Vehicle.direction v) (Vehicle.lane_type v))
  else Vehicle.should_wait v phase = false.

(** ** Arithmetic of the comparisons and of the clamps *)

Lemma Qltb_lt (a b : Q) : Qltb a b = true ↔ (a < b)%Q.
Proof.
  unfold Qltb. rewrite negb_true_iff. split; intros H.
  - destruct (Qlt_le_dec a b) as [Hlt | Hle]; [exact Hlt |].
    apply Qle_bool_iff in Hle. congruence.
  - apply not_true_is_false. intros Hle. apply Qle_bool_iff in Hle. lra.
Qed.

Lemma Qltb_ge (a b : Q) : Qltb a b = false ↔ (b <= a)%Q.
Proof.
  unfold Qltb. rewrite negb_false_iff. apply Qle_bool_iff.
Qed.

Lemma py_max_lower (a b : Q) : (a <= py_max a b)%Q.
Proof.
  unfold py_max. destruct (Qltb a b) eqn:E; [| lra].
  apply Qltb_lt in E. lra.
Qed.

Lemma py_max_upper (a b c : Q) : (a <= c)%Q → (b <= c)%Q → (py_max a b <= c)%Q.
Proof. unfold py_max. destruct (Qltb a b); auto. Qed.

Lemma py_min_upper (a b : Q) : (py_min a b <= a)%Q.
Proof.
  unfold py_min. destruct (Qltb b a) eqn:E; [| lra].
  apply Qltb_lt in E. lra.
Qed.

Lemma py_min_lower (a b c : Q) : (c <= a)%Q → (c <= b)%Q → (c <= py_min a b)%Q.
Proof. unfold py_min. destruct (Qltb b a); auto. Qed.

(** ** What [update] leaves alone *)

Section VehicleFrame.
Import Vehicle.

Lemma check_passed_fields (v : t) :
  speed (check_passed v) = speed v
  ∧ max_speed (check_passed v) = max_speed v
  ∧ acceleration (check_passed v) = acceleration v
  ∧ deceleration (check_passed v) = deceleration v
  ∧ waiting_time (check_passed v) = waiting_time v
  ∧ has_turned (check_passed v) = has_turned v
  ∧ lane_type (check_passed v) = lane_type v
  ∧ direction (check_passed v) = direction v
  ∧ collided (check_passed v) = collided v
  ∧ x (check_passed v) = x v ∧ y (check_passed v) = y v.
Proof.
  unfold check_passed. destruct (direction v) eqn:D;
    repeat case_match; simpl; rewrite ?D; repeat split; reflexivity.
Qed.

Lemma move_fields (v : t) :
  speed (move v) = speed v
  ∧ max_speed (move v) = max_speed v
  ∧ acceleration (move v) = acceleration v
  ∧ deceleration (move v) = deceleration v
  ∧ waiting_time (move v) = waiting_time v
  ∧ has_turned (move v) = has_turned v
  ∧ lane_type (move v) = lane_type v
  ∧ direction (move v) = direction v
  ∧ collided (move v) = collided v
  ∧ passed (move v) = passed v.
Proof.
  unfold move. destruct (direction v) eqn:D; simpl; rewrite ?D;
    repeat split; reflexivity.
Qed.

Lemma turn_left_fields (v : t) :
  speed (_turn_left v) = speed v
  ∧ max_speed (_turn_left v) = max_speed v
  ∧ acceleration (_turn_left v) = acceleration v
  ∧ deceleration (_turn_left v) = deceleration v
  ∧ waiting_time (_turn_left v) = waiting_time v
  ∧ has_turned (_turn_left v) = true
  ∧ lane_type (_turn_left v) = lane_type v
  ∧ collided (_turn_left v) = collided v
  ∧ passed (_turn_left v) = passed v.
Proof.
  unfold _turn_left. destruct (direction v); simpl; repeat split; reflexivity.
Qed.

Lemma adjust_speed_fields (sw b : bool) (v : t) :
  let w := adjust_speed sw (set_in_intersection_zone b v) in
  max_speed w = max_speed v
  ∧ acceleration w = acceleration v
  ∧ deceleration w = deceleration v
  ∧ has_turned w = has_turned v
  ∧ lane_type w = lane_type v
  ∧ direction w = direction v
  ∧ collided w = collided v
  ∧ passed w = passed v
  ∧ x w = x v ∧ y w = y v.
Proof.
  unfold adjust_speed. repeat case_match; simpl; repeat split; reflexivity.
Qed.

(** A vehicle that must wait is on the approach side of its line. *)
Lemma should_wait_approaching (v : t) (p : Z) :
  should_wait v p = true → approaching_intersection v = true.
Proof.
  unfold should_wait. destruct (approaching_intersection v); simpl; congruence.
Qed.

(** The terminal case of [update]. *)
Lemma update_terminal (p : Z) (c : bool) (v : t) :
  passed v || collided v = true → update p c v = v.
Proof. intros H. unfold update. rewrite H. reflexivity. Qed.

(** The active case of [update], one statement after the other. *)
Lemma update_active (p : Z) (c : bool) (v : t) :
  passed v || collided v = false →
  update p c v =
  let v2 := adjust_speed (should_wait v p)
              (set_in_intersection_zone (in_intersection v) v) in
  check_passed (move (if negb (should_wait v p) && _should_turn_left_now v2
                      then _turn_left v2 else v2)).
Proof. intros H. unfold update. rewrite H. reflexivity. Qed.

(** The speed an active vehicle leaves [update] with. *)
Lemma update_speed (p : Z) (c : bool) (v : t) :
  passed v || collided v = false →
  speed (update p c v) =
  if should_wait v p then py_max 0 (speed v - deceleration v)
  else py_min (max_speed v) (speed v + acceleration v).
Proof.
  intros H. rewrite (update_active p c v H). cbv zeta.
  destruct (check_passed_fields
    (move (if negb (should_wait v p)
              && _should_turn_left_now
                   (adjust_speed (should_wait v p)
                      (set_in_intersection_zone (in_intersection v) v))
           then _turn_left
                  (adjust_speed (should_wait v p)
                     (set_in_intersection_zone (in_intersection v) v))
           else adjust_speed (should_wait v p)
                  (set_in_intersection_zone (in_intersection v) v))))
    as (-> & _).
  match goal with |- speed (move ?w) = _ =>
    destruct (move_fields w) as (-> & _) end.
  destruct (should_wait v p) eqn:SW; simpl.
  - unfold adjust_speed.
    change (approaching_intersection
              (set_in_intersection_zone (in_intersection v) v))
      with (approaching_intersection v).
    rewrite (should_wait_approaching v p SW). reflexivity.
  - match goal with |- speed (if ?b then _ else _) = _ => destruct b end;
      [match goal with |- speed (_turn_left ?w) = _ =>
         destruct (turn_left_fields w) as (-> & _) end |];
      reflexivity.
Qed.

(** The waiting time an active vehicle leaves [update] with. *)
Lemma update_waiting_time (p : Z) (c : bool) (v : t) :
  passed v || collided v = false →
  waiting_time (update p c v) =
  if should_wait v p then (waiting_time v + 1)%Z else waiting_time v.
Proof.
  intros H. rewrite (update_active p c v H). cbv zeta.
  match goal with |- waiting_time (check_passed ?w) = _ =>
    destruct (check_passed_fields w) as (_ & _ & _ & _ & -> & _) end.
  match goal with |- waiting_time (move ?w) = _ =>
    destruct (move_fields w) as (_ & _ & _ & _ & -> & _) end.
  destruct (should_wait v p) eqn:SW; simpl.
  - unfold adjust_speed.
    change (approaching_intersection
              (set_in_intersection_zone (in_intersection v) v))
      with (approaching_intersection v).
    rewrite (should_wait_approaching v p SW). reflexivity.
  - match goal with |- waiting_time (if ?b then _ else _) = _ =>
      destruct b end;
      [match goal with |- waiting_time (_turn_left ?w) = _ =>
         destruct (turn_left_fields w) as (_ & _ & _ & _ & -> & _) end |];
      reflexivity.
Qed.

(** The kinematic constants and the lane type never change. *)
Lemma update_constants (p : Z) (c : bool) (v : t) :
  max_speed (update p c v) = max_speed v
  ∧ acceleration (update p c v) = acceleration v
  ∧ deceleration (update p c v) = deceleration v
  ∧ lane_type (update p c v) = lane_type v
  ∧ collided (update p c v) = collided v.
Proof.
  destruct (passed v || collided v) eqn:H.
  - rewrite (update_terminal p c v H). repeat split; reflexivity.
  - rewrite (update_active p c v H). cbv zeta.
    pose proof (adjust_speed_fields (should_wait v p) (in_intersection v) v)
      as Ha. cbv zeta in Ha.
    remember (adjust_speed (should_wait v p)
                (set_in_intersection_zone (in_intersection v) v)) as v2.
    pose proof (turn_left_fields v2) as Ht.
    remember (if negb (should_wait v p) && _should_turn_left_now v2
              then _turn_left v2 else v2) as v3.
    assert (max_speed v3 = max_speed v2 ∧ acceleration v3 = acceleration v2
            ∧ deceleration v3 = deceleration v2
            ∧ lane_type v3 = lane_type v2 ∧ collided v3 = collided v2)
      as H3.
    { subst v3. destruct (negb (should_wait v p) && _should_turn_left_now v2);
        intuition congruence. }
    pose proof (check_passed_fields (move v3)) as Hc.
    pose proof (move_fields v3) as Hm.
    intuition congruence.
Qed.

End VehicleFrame.

(** ** The per-vehicle invariant *)

Section VehicleInvariant.
Import Vehicle.

Lemma vehicle_inv_init (i : Z) (d : Direction) (l : LaneType) (st : Z) :
  vehicle_inv (init i d l st).
Proof.
  unfold vehicle_inv, init; simpl. repeat split; try lra. all: discriminate.
Qed.

Lemma check_passed_approaching (v : t) :
  approaching_intersection (check_passed v) = approaching_intersection v.
Proof.
  unfold approaching_intersection.
  destruct (check_passed_fields v)
    as (_ & _ & _ & _ & _ & _ & _ & -> & _ & -> & ->).
  reflexivity.
Qed.

(** Moving forward never brings a vehicle back before its line. *)
Lemma move_approaching (v : t) :
  (0 <= speed v)%Q → approaching_intersection v = false →
  approaching_intersection (move v) = false.
Proof.
  unfold approaching_intersection, move.
  destruct (direction v) eqn:D; simpl; rewrite ?D;
    rewrite !Qltb_ge; intros; lra.
Qed.

(** The snapped position lies past the line of the new heading. *)
Lemma turn_left_approaching (v : t) :
  approaching_intersection (_turn_left v) = false.
Proof. unfold _turn_left. destruct (direction v); reflexivity. Qed.

Lemma should_turn_left_now_left (v : t) :
  _should_turn_left_now v = true →
  lane_type v = Left ∧ has_turned v = false.
Proof.
  unfold _should_turn_left_now.
  destruct (lane_type v), (has_turned v); simpl; try discriminate. auto.
Qed.

(** [has_turned] after an update: kept, or set by a turn, which only a
    left-lane vehicle that has not turned makes. *)
Lemma update_has_turned (p : Z) (c : bool) (v : t) :
  has_turned (update p c v) = has_turned v
  ∨ (has_turned v = false ∧ lane_type v = Left
     ∧ should_wait v p = false ∧ has_turned (update p c v) = true).
Proof.
  destruct (passed v || collided v) eqn:H.
  - rewrite (update_terminal p c v H). by left.
  - rewrite (update_active p c v H). cbv zeta.
    pose proof (adjust_speed_fields (should_wait v p) (in_intersection v) v)
      as Ha. cbv zeta in Ha.
    remember (adjust_speed (should_wait v p)
                (set_in_intersection_zone (in_intersection v) v)) as v2.
    destruct (negb (should_wait v p) && _should_turn_left_now v2) eqn:B.
    + apply andb_true_iff in B as [SW B].
      apply negb_true_iff in SW.
      apply should_turn_left_now_left in B.
      pose proof (turn_left_fields v2) as Ht.
      pose proof (check_passed_fields (move (_turn_left v2))) as Hc.
      pose proof (move_fields (_turn_left v2)) as Hm.
      right. intuition congruence.
    + pose proof (check_passed_fields (move v2)) as Hc.
      pose proof (move_fields v2) as Hm.
      left. intuition congruence.
Qed.

Lemma update_has_turned_mono (p : Z) (c : bool) (v : t) :
  has_turned v = true → has_turned (update p c v) = true.
Proof.
  intros H. destruct (update_has_turned p c v) as [-> | (E & _)];
    congruence.
Qed.

Lemma vehicle_inv_speed (p : Z) (c : bool) (v : t) :
  vehicle_inv v →
  (0 <= speed (update p c v))%Q
  ∧ (speed (update p c v) <= max_speed (update p c v))%Q.
Proof.
  intros (H0 & H1 & Ha & Hd & _).
  destruct (update_constants p c v) as (-> & _).
  destruct (passed v || collided v) eqn:H.
  - rewrite (update_terminal p c v H). auto.
  - rewrite (update_speed p c v H).
    destruct (should_wait v p).
    + split; [apply py_max_lower | apply py_max_upper; lra].
    + split; [apply py_min_lower; lra | apply py_min_upper].
Qed.

(** After an update, a turned vehicle is past its approach zone. *)
Lemma update_turned_approaching (p : Z) (c : bool) (v : t) :
  vehicle_inv v → has_turned (update p c v) = true →
  approaching_intersection (update p c v) = false.
Proof.
  intros (H0 & H1 & Ha & Hd & Ht) T.
  assert (should_wait v p = false) as SW.
  { destruct (update_has_turned p c v) as [E | (_ & _ & SW & _)];
      [| exact SW].
    rewrite E in T. destruct (Ht T) as [_ Hap].
    unfold should_wait. rewrite Hap. reflexivity. }
  destruct (passed v || collided v) eqn:H.
  - rewrite (update_terminal p c v H) in T |- *. by apply Ht.
  - rewrite (update_active p c v H) in T |- *. cbv zeta in T |- *.
    rewrite check_passed_approaching.
    rewrite SW in T |- *. cbn [negb andb] in T |- *.
    pose proof (adjust_speed_fields false (in_intersection v) v) as Hf.
    cbv zeta in Hf.
    assert ((0 <= speed (adjust_speed false
              (set_in_intersection_zone (in_intersection v) v)))%Q) as Hs.
    { unfold adjust_speed; simpl. apply py_min_lower; lra. }
    remember (adjust_speed false
                (set_in_intersection_zone (in_intersection v) v)) as v2.
    destruct (_should_turn_left_now v2) eqn:B.
    + apply move_approaching; [| apply turn_left_approaching].
      destruct (turn_left_fields v2) as (-> & _). exact Hs.
    + apply move_approaching; [exact Hs |].
      pose proof (check_passed_fields (move v2)) as Hc.
      pose proof (move_fields v2) as Hm.
      assert (has_turned v = true) as Tv by intuition congruence.
      destruct (Ht Tv) as [_ Hap].
      unfold approaching_intersection in Hap |- *.
      destruct Hf as (_ & _ & _ & _ & _ & -> & _ & _ & -> & ->).
      exact Hap.
Qed.

Lemma vehicle_inv_update (p : Z) (c : bool) (v : t) :
  vehicle_inv v → vehicle_inv (update p c v).
Proof.
  intros I. pose proof (vehicle_inv_speed p c v I) as [S0 S1].
  pose proof (update_turned_approaching p c v I) as Hap.
  destruct I as (H0 & H1 & Ha & Hd & Ht).
  pose proof (update_constants p c v) as (Em & Ea & Ed & El & _).
  split; [exact S0 |]. split; [exact S1 |].
  split; [rewrite Ea; exact Ha |]. split; [rewrite Ed; exact Hd |].
  intros T. split; [| auto].
  rewrite El. destruct (update_has_turned p c v) as [E | (_ & L & _)];
    [| exact L].
  apply Ht. congruence.
Qed.

Lemma vehicle_inv_updates (calls : list (Z * bool)) (v : t) :
  vehicle_inv v → vehicle_inv (updates calls v).
Proof.
  revert v. induction calls as [| c calls IH]; intros v I; simpl; [exact I |].
  apply IH, vehicle_inv_update, I.
Qed.

Lemma updates_app (l1 l2 : list (Z * bool)) (v : t) :
  updates (l1 ++ l2) v = updates l2 (updates l1 v).
Proof. unfold updates. apply foldl_app. Qed.

End VehicleInvariant.

(** ** Histories *)

Lemma transitions_history_cons (a b : bool) (c : Z * bool)
    (calls : list (Z * bool)) (v : Vehicle.t) :
  transitions a b (history (c :: calls) v) =
  ((if bool_decide (Vehicle.has_turned v = a)
       && bool_decide (Vehicle.has_turned (Vehicle.update c.1 c.2 v) = b)
    then 1 else 0)
   + transitions a b (history calls (Vehicle.update c.1 c.2 v)))%nat.
Proof. destruct calls; reflexivity. Qed.

Lemma history_turned (calls : list (Z * bool)) (v : Vehicle.t) :
  (Vehicle.has_turned v = true → Vehicle.lane_type v = Left) →
  transitions true false (history calls v) = 0%nat
  ∧ (transitions false true (history calls v)
     ≤ if Vehicle.has_turned v then 0 else 1)%nat
  ∧ Forall (λ w, Vehicle.has_turned w = true → Vehicle.lane_type w = Left)
      (history calls v).
Proof.
  revert v. induction calls as [| c calls IH]; intros v L.
  - simpl. repeat split; [destruct (Vehicle.has_turned v); lia |].
    by constructor.
  - set (v' := Vehicle.update c.1 c.2 v).
    assert (Vehicle.has_turned v' = true → Vehicle.lane_type v' = Left) as L'.
    { intros T. unfold v'.
      destruct (update_constants c.1 c.2 v) as (_ & _ & _ & -> & _).
      destruct (update_has_turned c.1 c.2 v) as [E | (_ & Hl & _)];
        [| exact Hl].
      apply L. fold v' in E. congruence. }
    destruct (IH v' L') as (I1 & I2 & I3).
    rewrite !transitions_history_cons. fold v'. rewrite I1.
    split; [| split].
    + destruct (Vehicle.has_turned v) eqn:T.
      * rewrite (update_has_turned_mono c.1 c.2 v T : Vehicle.has_turned v' = true).
        reflexivity.
      * reflexivity.
    + destruct (Vehicle.has_turned v) eqn:T.
      * rewrite (update_has_turned_mono c.1 c.2 v T : Vehicle.has_turned v' = true)
          in I2 |- *.
        simpl. lia.
      * destruct (Vehicle.has_turned v'); simpl in *; lia.
    + simpl. constructor; [exact L | exact I3].
Qed.

(** ** Properties of a vehicle *)

(** C4 (amended): a vehicle for which [approaching_intersection] holds,
    that is, anywhere before the line 10 units ahead of the centre on
    its axis, however far upstream, need not wait exactly when its
    direction and lane type are in the class of the phase (0: north or
    south, straight; 1: east or west, straight; 2: north or south, left;
    3: east or west, left), and must wait in every phase outside 0..3; a
    vehicle for which [approaching_intersection] is false never waits. *)
Theorem should_wait_right_of_way (v : Vehicle.t) (phase : Z) :
  (Vehicle.approaching_intersection v = true →
     (Vehicle.should_wait v phase = false
      ↔ right_of_way phase (Vehicle.direction v) (Vehicle.lane_type v) = true)
     ∧ ((phase < 0 ∨ 3 < phase)%Z → Vehicle.should_wait v phase = true))
  ∧ (Vehicle.approaching_intersection v = false →
     Vehicle.should_wait v phase = false).
Proof.
  unfold Vehicle.should_wait. split; intros ->; simpl; [| reflexivity].
  split.
  - destruct phase as [| [q | q |] | q]; simpl;
      try (rewrite negb_false_iff; reflexivity);
      try (split; discriminate).
    + destruct q; simpl; try (split; discriminate).
      rewrite negb_false_iff; reflexivity.
    + destruct q; simpl; try (split; discriminate).
      rewrite negb_false_iff; reflexivity.
  - intros [H | H].
    + destruct phase; try lia. reflexivity.
    + destruct phase as [| [[q | q |] | [q | q |] |] | q]; try lia; reflexivity.
Qed.

Lemma should_wait_right_of_way_witness :
  Vehicle.should_wait (Vehicle.init 0 North Straight 0) 0 = false
  ∧ Vehicle.should_wait (Vehicle.init 0 North Straight 0) 7 = true
  ∧ Vehicle.should_wait (Vehicle._turn_left (Vehicle.init 0 North Left 0)) 1
    = false.
Proof.
  destruct (should_wait_right_of_way (Vehicle.init 0 North Straight 0) 0)
    as [H0 _].
  destruct (should_wait_right_of_way (Vehicle.init 0 North Straight 0) 7)
    as [H7 _].
  destruct (should_wait_right_of_way
              (Vehicle._turn_left (Vehicle.init 0 North Left 0)) 1)
    as [_ H1].
  split; [| split].
  - apply (H0 eq_refl). reflexivity.
  - apply (H7 eq_refl). right. lia.
  - apply H1. reflexivity.
Defined.

(** C4 (as stated, refuted): a north-bound straight vehicle at its
    spawn point, y = -80, is not within 10 units of the stop line,
    whether the line is taken at the boundary of the intersection box
    (30 from the centre) or at the line the code tests (10 from the
    centre); it is outside the approach zone of the specification, and
    yet [should_wait] is true in phase 1, where the statement makes it
    false. *)
Lemma far_vehicle_must_wait :
  within_10_of_stop_line 30 (Vehicle.init 0 North Straight 0) = false
  ∧ within_10_of_stop_line 10 (Vehicle.init 0 North Straight 0) = false
  ∧ Vehicle.should_wait (Vehicle.init 0 North Straight 0) 1 = true
  ∧ ¬ should_wait_as_specified 30 (Vehicle.init 0 North Straight 0) 1
  ∧ ¬ should_wait_as_specified 10 (Vehicle.init 0 North Straight 0) 1.
Proof.
  split; [reflexivity |]. split; [reflexivity |]. split; [reflexivity |].
  split; intros H; vm_compute in H; discriminate H.
Qed.

(** C5: at construction and after every call to [update], the speed of a
    vehicle is between 0 and its maximal speed. *)
Theorem speed_within_bounds (i : Z) (d : Direction) (l : LaneType)
    (st : Z) (calls : list (Z * bool)) :
  let v := updates calls (Vehicle.init i d l st) in
  (0 <= Vehicle.speed v)%Q ∧ (Vehicle.speed v <= Vehicle.max_speed v)%Q.
Proof.
  pose proof (vehicle_inv_updates calls _ (vehicle_inv_init i d l st))
    as (H0 & H1 & _).
  split; assumption.
Qed.

(** C7: over the lifetime of a vehicle, [has_turned] never goes from true
    to false, goes from false to true at most once, and is true only for
    a vehicle of the left lane. *)
Theorem has_turned_monotone_left_only (i : Z) (d : Direction) (l : LaneType)
    (st : Z) (calls : list (Z * bool)) :
  let h := history calls (Vehicle.init i d l st) in
  transitions true false h = 0%nat
  ∧ (transitions false true h ≤ 1)%nat
  ∧ Forall (λ v, Vehicle.has_turned v = true → Vehicle.lane_type v = Left) h.
Proof.
  destruct (history_turned calls (Vehicle.init i d l st)) as (H1 & H2 & H3).
  - discriminate.
  - simpl in H2. auto.
Qed.

(** C3 (as stated, refuted): a north-bound vehicle at its spawn point,
    50 units before the intersection boundary, must wait in phase 1; it
    is not within 10 units of the boundary, and yet it decelerates and
    its waiting time grows, where the statement makes it accelerate. *)
Lemma far_vehicle_waits_and_decelerates :
  Vehicle.should_wait (Vehicle.init 0 North Straight 0) 1 = true
  ∧ within_10_of_boundary (Vehicle.init 0 North Straight 0) = false
  ∧ (Vehicle.speed (Vehicle.update 1 true (Vehicle.init 0 North Straight 0))
     == 1.2)%Q
  ∧ Vehicle.waiting_time
      (Vehicle.update 1 true (Vehicle.init 0 North Straight 0)) = 1%Z
  ∧ ¬ waits_as_specified (Vehicle.init 0 North Straight 0) 1.
Proof.
  split; [reflexivity |]. split; [reflexivity |]. split; [reflexivity |].
  split; [reflexivity |].
  intros [_ H]. vm_compute in H. discriminate H.
Qed.

(** C3 (amended): an active vehicle that must wait is before the line 10
    units ahead of the centre on its axis, however far from the
    intersection it is; it decelerates by [deceleration], not below 0,
    and its waiting time grows by one. *)
Theorem waiting_vehicle_decelerates (v : Vehicle.t) (phase : Z)
    (clear : bool) :
  Vehicle.passed v = false → Vehicle.collided v = false →
  Vehicle.should_wait v phase = true →
  Vehicle.approaching_intersection v = true
  ∧ Vehicle.speed (Vehicle.update phase clear v)
    = py_max 0 (Vehicle.speed v - Vehicle.deceleration v)
  ∧ Vehicle.waiting_time (Vehicle.update phase clear v)
    = (Vehicle.waiting_time v + 1)%Z.
Proof.
  intros P C SW.
  assert (Vehicle.passed v || Vehicle.collided v = false) as H
    by (rewrite P, C; reflexivity).
  split; [exact (should_wait_approaching v phase SW) |].
  rewrite (update_speed phase clear v H), (update_waiting_time phase clear v H).
  rewrite SW. split; reflexivity.
Qed.

Lemma waiting_vehicle_decelerates_witness :
  Vehicle.approaching_intersection (Vehicle.init 0 North Straight 0) = true
  ∧ Vehicle.speed (Vehicle.update 1 true (Vehicle.init 0 North Straight 0))
    = py_max 0 (1.5 - 0.3)
  ∧ Vehicle.waiting_time
      (Vehicle.update 1 true (Vehicle.init 0 North Straight 0)) = (0 + 1)%Z.
Proof.
  apply (waiting_vehicle_decelerates (Vehicle.init 0 North Straight 0) 1 true);
    reflexivity.
Defined.

(** C10: once a vehicle has turned left, it is past the approach zone of
    its new heading, at the end of the tick of the turn and after every
    later update: it need not wait in any phase, and its waiting time
    stays what it was. *)
Theorem turned_vehicle_never_waits (i : Z) (d : Direction) (l : LaneType)
    (st : Z) (calls : list (Z * bool)) :
  let v := updates calls (Vehicle.init i d l st) in
  Vehicle.has_turned v = true →
  ∀ later : list (Z * bool),
    let v' := updates later v in
    Vehicle.approaching_intersection v' = false
    ∧ (∀ phase, Vehicle.should_wait v' phase = false)
    ∧ Vehicle.waiting_time v' = Vehicle.waiting_time v.
Proof.
  intros v T later.
  assert (vehicle_inv v) as I
    by apply vehicle_inv_updates, vehicle_inv_init.
  clearbody v. revert v T I.
  induction later as [| c later IH]; intros v T I; simpl.
  - destruct I as (_ & _ & _ & _ & Ht). destruct (Ht T) as [_ Hap].
    repeat split; [exact Hap |].
    intros phase. unfold Vehicle.should_wait. rewrite Hap. reflexivity.
  - destruct (IH (Vehicle.update c.1 c.2 v)) as (A & B & C).
    + by apply update_has_turned_mono.
    + by apply vehicle_inv_update.
    + split; [exact A |]. split; [exact B |]. rewrite C.
      destruct (Vehicle.passed v || Vehicle.collided v) eqn:H.
      * rewrite (update_terminal c.1 c.2 v H). reflexivity.
      * rewrite (update_waiting_time c.1 c.2 v H).
        destruct I as (_ & _ & _ & _ & Ht). destruct (Ht T) as [_ Hap].
        unfold Vehicle.should_wait. rewrite Hap. reflexivity.
Qed.

Lemma turned_vehicle_never_waits_witness :
  Vehicle.has_turned
    (updates (replicate 33 (2%Z, true)) (Vehicle.init 0 North Left 0)) = true
  ∧ Vehicle.should_wait
      (updates (replicate 5 (1%Z, true))
         (updates (replicate 33 (2%Z, true)) (Vehicle.init 0 North Left 0))) 1
    = false.
Proof.
  assert (Vehicle.has_turned
            (updates (replicate 33 (2%Z, true)) (Vehicle.init 0 North Left 0))
          = true) as T by (vm_compute; reflexivity).
  split; [exact T |].
  destruct (turned_vehicle_never_waits 0 North Left 0
              (replicate 33 (2%Z, true)) T (replicate 5 (1%Z, true)))
    as (_ & W & _).
  apply W.
Defined.

(** ** Properties of the metrics collector *)

Section Metrics.
Import TrafficMetricsCollector.

Lemma update_metrics_throughputs (vi : gmap Z VehicleData.t)
    (ph st pa tot : Z) (m : t) :
  throughputs (update_metrics vi ph st pa tot m) =
  if (0 <? st)%Z
  then throughputs m ++ [(inject_Z tot / inject_Z st)%Q]
  else throughputs m.
Proof. reflexivity. Qed.

Lemma update_metrics_waiting_times (vi : gmap Z VehicleData.t)
    (ph st pa tot : Z) (m : t) :
  length (waiting_times (update_metrics vi ph st pa tot m))
  = S (length (waiting_times m)).
Proof.
  unfold update_metrics; simpl.
  destruct (map_fold _ _ vi).2; rewrite length_app; simpl; lia.
Qed.

Lemma get_metrics_throughput (m : t) :
  throughput (get_metrics m)
  = match last (throughputs m) with Some r => r | None => 0%Q end.
Proof. reflexivity. Qed.

Lemma get_metrics_current_vehicles (m : t) :
  current_vehicles (get_metrics m) = Z.of_nat (length (waiting_times m)).
Proof. reflexivity. Qed.

End Metrics.

(** C8: with a positive [current_step], [update_metrics] records the
    sample [total_passed / current_step], which [get_metrics] then
    returns; at step 0 nothing is recorded and nothing is divided;
    [get_metrics] returns 0 while there is no sample, and the last
    sample otherwise. *)
Theorem throughput_sample_guarded (m : TrafficMetricsCollector.t)
    (vehicles_info : gmap Z VehicleData.t)
    (current_phase current_step passed_this_step total_passed : Z) :
  let m' := TrafficMetricsCollector.update_metrics vehicles_info
              current_phase current_step passed_this_step total_passed m in
  ((0 < current_step)%Z →
     TrafficMetricsCollector.throughputs m'
     = TrafficMetricsCollector.throughputs m
       ++ [(inject_Z total_passed / inject_Z current_step)%Q]
     ∧ TrafficMetricsCollector.throughput
         (TrafficMetricsCollector.get_metrics m')
       = (inject_Z total_passed / inject_Z current_step)%Q)
  ∧ (current_step = 0%Z →
     TrafficMetricsCollector.throughputs m'
     = TrafficMetricsCollector.throughputs m)
  ∧ (TrafficMetricsCollector.throughputs m = [] →
     TrafficMetricsCollector.throughput
       (TrafficMetricsCollector.get_metrics m) = 0%Q)
  ∧ (∀ l r, TrafficMetricsCollector.throughputs m = l ++ [r] →
     TrafficMetricsCollector.throughput
       (TrafficMetricsCollector.get_metrics m) = r).
Proof.
  intros m'. rewrite !get_metrics_throughput. unfold m'.
  rewrite update_metrics_throughputs.
  split; [| split; [| split]].
  - intros H. destruct (Z.ltb_spec 0 current_step) as [_ | ?]; [| lia].
    rewrite last_snoc. split; reflexivity.
  - intros ->. reflexivity.
  - intros ->. reflexivity.
  - intros l r ->. rewrite last_snoc. reflexivity.
Qed.

Lemma throughput_sample_guarded_witness :
  TrafficMetricsCollector.throughput
    (TrafficMetricsCollector.get_metrics
       (TrafficMetricsCollector.update_metrics ∅ 0 4 0 3
          TrafficMetricsCollector.reset))
  = (inject_Z 3 / inject_Z 4)%Q
  ∧ TrafficMetricsCollector.throughputs
      (TrafficMetricsCollector.update_metrics ∅ 0 0 0 0
         TrafficMetricsCollector.reset) = []
  ∧ TrafficMetricsCollector.throughput
      (TrafficMetricsCollector.get_metrics TrafficMetricsCollector.reset)
    = 0%Q.
Proof.
  destruct (throughput_sample_guarded TrafficMetricsCollector.reset ∅ 0 4 0 3)
    as (H4 & _ & _ & _).
  destruct (throughput_sample_guarded TrafficMetricsCollector.reset ∅ 0 0 0 0)
    as (_ & H0 & HE & _).
  split; [| split].
  - apply H4. lia.
  - apply H0. reflexivity.
  - apply HE. reflexivity.
Defined.

(** C2 (the code at the failing input): [current_vehicles] is the number
    of samples of [waiting_times], one more after every
    [update_metrics], whatever the snapshot holds.  After one tick of a
    fresh simulation without a spawn the snapshot is empty and
    [current_vehicles] is 1; after 60 ticks of [left_turn_run] four
    vehicles are active and [current_vehicles] is 64. *)
Theorem current_vehicles_counts_samples :
  (∀ (m : TrafficMetricsCollector.t) (vehicles_info : gmap Z VehicleData.t)
     (current_phase current_step passed_this_step total_passed : Z),
     TrafficMetricsCollector.current_vehicles
       (TrafficMetricsCollector.get_metrics
          (TrafficMetricsCollector.update_metrics vehicles_info current_phase
             current_step passed_this_step total_passed m))
     = (Z.of_nat (length (TrafficMetricsCollector.waiting_times m)) + 1)%Z)
  ∧ (let s := TrafficSimulation.step 0 never TrafficSimulation.init in
     active_count (TrafficSimulation.snapshot <$> TrafficSimulation.vehicles s)
     = 0%Z
     ∧ TrafficMetricsCollector.current_vehicles
         (TrafficSimulation.get_metrics s) = 1%Z)
  ∧ (let s := TrafficSimulation.run (left_turn_run 60)
                TrafficSimulation.init in
     active_count (TrafficSimulation.snapshot <$> TrafficSimulation.vehicles s)
     = 4%Z
     ∧ TrafficMetricsCollector.current_vehicles
         (TrafficSimulation.get_metrics s) = 64%Z).
Proof.
  split; [| split].
  - intros. rewrite get_metrics_current_vehicles.
    rewrite update_metrics_waiting_times. lia.
  - vm_compute. split; reflexivity.
  - vm_compute. split; reflexivity.
Qed.

(** ** Counting in a filtered map *)

Section Counting.
Context {A : Type}.
Implicit Types (m : gmap Z A) (P Q : Z * A → Prop).

Lemma size_filter_subseteq P `{!∀ x, Decision (P x)} m1 m2 :
  m1 ⊆ m2 → size (filter P m1) ≤ size (filter P m2).
Proof.
  intros Hsub. apply map_subseteq_size. by apply map_filter_subseteq_mono.
Qed.

Lemma size_filter_mono P Q `{!∀ x, Decision (P x)} `{!∀ x, Decision (Q x)} m :
  (∀ k a, m !! k = Some a → P (k, a) → Q (k, a)) →
  size (filter P m) ≤ size (filter Q m).
Proof.
  intros Himp. apply map_subseteq_size. by apply map_filter_subseteq_ext.
Qed.

Lemma size_filter_insert P `{!∀ x, Decision (P x)} m k a :
  size (filter P (<[k:=a]> m)) ≤ S (size (filter P m)).
Proof.
  rewrite map_filter_insert. destruct (decide (P (k, a))).
  - rewrite map_size_insert. destruct (filter P m !! k); simpl; lia.
  - etrans; [apply (size_filter_subseteq P), delete_subseteq | lia].
Qed.

Lemma size_filter_insert_not P `{!∀ x, Decision (P x)} m k a :
  ¬ P (k, a) → size (filter P (<[k:=a]> m)) ≤ size (filter P m).
Proof.
  intros Hnot. rewrite map_filter_insert_False by exact Hnot.
  apply (size_filter_subseteq P), delete_subseteq.
Qed.

Lemma size_filter_fmap {B : Type} (P : Z * A → Prop)
    `{!∀ x, Decision (P x)} (f : B → A) (m : gmap Z B) :
  size (filter P (f <$> m)) = size (filter (λ kb, P (kb.1, f kb.2)) m).
Proof.
  rewrite map_filter_fmap, map_size_fmap. reflexivity.
Qed.

(** Deleting a list of keys, one after the other. *)
Lemma lookup_foldr_delete m (ks : list Z) (k : Z) :
  foldr delete m ks !! k = if decide (k ∈ ks) then None else m !! k.
Proof.
  induction ks as [| j ks IH]; cbn [foldr].
  - destruct (decide (k ∈ [])) as [Hin | _]; [| reflexivity].
    by apply not_elem_of_nil in Hin.
  - destruct (decide (j = k)) as [-> | Hne].
    + rewrite lookup_delete_eq.
      destruct (decide (k ∈ k :: ks)) as [_ | Hnin]; [reflexivity |].
      destruct Hnin. apply list_elem_of_here.
    + rewrite lookup_delete_ne, IH by exact Hne.
      destruct (decide (k ∈ ks)) as [Hin | Hnin];
        destruct (decide (k ∈ j :: ks)) as [Hin' | Hnin'];
        try reflexivity.
      * destruct Hnin'. by apply list_elem_of_further.
      * apply elem_of_cons in Hin' as [-> | ?]; congruence.
Qed.

Lemma foldr_delete_subseteq m (ks : list Z) : foldr delete m ks ⊆ m.
Proof.
  apply map_subseteq_spec. intros k a. rewrite lookup_foldr_delete.
  case_decide; congruence.
Qed.

End Counting.

(** ** The simulation invariant *)

Section UpdateInLane.
Import Vehicle.

Lemma update_unturned (p : Z) (c : bool) (v : t) :
  has_turned (update p c v) = false →
  direction (update p c v) = direction v ∧ has_turned v = false.
Proof.
  intros T. destruct (passed v || collided v) eqn:H.
  - rewrite (update_terminal p c v H) in T |- *. auto.
  - rewrite (update_active p c v H) in T |- *. cbv zeta in T |- *.
    pose proof (adjust_speed_fields (should_wait v p) (in_intersection v) v)
      as Ha. cbv zeta in Ha.
    remember (adjust_speed (should_wait v p)
                (set_in_intersection_zone (in_intersection v) v)) as v2.
    destruct (negb (should_wait v p) && _should_turn_left_now v2).
    + pose proof (turn_left_fields v2) as Ht.
      pose proof (check_passed_fields (move (_turn_left v2))) as Hc.
      pose proof (move_fields (_turn_left v2)) as Hm.
      exfalso. intuition congruence.
    + pose proof (check_passed_fields (move v2)) as Hc.
      pose proof (move_fields v2) as Hm.
      intuition congruence.
Qed.

Lemma update_not_passed (p : Z) (c : bool) (v : t) :
  passed (update p c v) = false → passed v = false.
Proof.
  destruct (passed v || collided v) eqn:H.
  - rewrite (update_terminal p c v H). auto.
  - intros _. by apply orb_false_iff in H as [H _].
Qed.

(** A vehicle counted as spawned into a lane after an update was
    counted for that lane before it. *)
Lemma update_spawned_in_lane (p : Z) (c : bool) (d : Direction)
    (l : LaneType) (v : t) :
  spawned_in_lane d l (update p c v) = true → spawned_in_lane d l v = true.
Proof.
  unfold spawned_in_lane, TrafficSimulation.in_lane.
  rewrite !andb_true_iff, !negb_true_iff, !bool_decide_eq_true.
  intros ((((D & L) & P) & C) & T).
  destruct (update_unturned p c v T) as [Ed Et].
  destruct (update_constants p c v) as (_ & _ & _ & El & Ec).
  pose proof (update_not_passed p c v P).
  repeat split; congruence.
Qed.

End UpdateInLane.

Section Simulation.
Import TrafficSimulation.

Lemma spawn_lane_cases (r : Q) (d : Direction) (l : LaneType) (s : t) :
  spawn_lane r d l s = s
  ∨ ((lane_count d l (vehicles s) < 4)%nat
     ∧ spawn_lane r d l s = add_vehicle d l s).
Proof.
  unfold spawn_lane. destruct (Qltb r _); [| by left].
  destruct (Nat.ltb_spec (lane_count d l (vehicles s)) 4); [right | left];
    auto.
Qed.

(** A property kept by the loop body is kept by [spawn_vehicles]. *)
Lemma spawn_vehicles_keeps (P : t → Prop)
    (draws : Direction → LaneType → Q) (s : t) :
  (∀ r d l s', P s' → P (spawn_lane r d l s')) →
  P s → P (spawn_vehicles draws s).
Proof.
  intros Hk. unfold spawn_vehicles. generalize lanes. intros ls.
  revert s. induction ls as [| dl ls IH]; intros s Hs; simpl; [exact Hs |].
  apply IH, Hk, Hs.
Qed.

(** What the spawn process leaves alone. *)
Lemma spawn_vehicles_frame (draws : Direction → LaneType → Q) (s : t) :
  current_step (spawn_vehicles draws s) = current_step s
  ∧ metrics_collector (spawn_vehicles draws s) = metrics_collector s
  ∧ spawn_probabilities (spawn_vehicles draws s) = spawn_probabilities s
  ∧ total_passed_vehicles (spawn_vehicles draws s) = total_passed_vehicles s.
Proof.
  apply (spawn_vehicles_keeps
    (λ s', current_step s' = current_step s
           ∧ metrics_collector s' = metrics_collector s
           ∧ spawn_probabilities s' = spawn_probabilities s
           ∧ total_passed_vehicles s' = total_passed_vehicles s)); [| auto].
  intros r d l s' Hs'.
  destruct (spawn_lane_cases r d l s') as [-> | [_ ->]]; simpl; auto.
Qed.

Lemma spawned_le_lane_count (d : Direction) (l : LaneType)
    (vs : gmap Z Vehicle.t) :
  (spawned_lane_count d l vs ≤ lane_count d l vs)%nat.
Proof.
  apply size_filter_mono. intros k v _. unfold spawned_in_lane. simpl.
  rewrite andb_true_iff. tauto.
Qed.

Lemma spawned_in_lane_init (d d' : Direction) (l l' : LaneType) (i st : Z) :
  spawned_in_lane d' l' (Vehicle.init i d l st) = true → d = d' ∧ l = l'.
Proof.
  unfold spawned_in_lane, in_lane; simpl.
  rewrite !andb_true_iff, !bool_decide_eq_true. tauto.
Qed.

Lemma sim_inv_spawn_lane (r : Q) (d : Direction) (l : LaneType) (s : t) :
  sim_inv s → sim_inv (spawn_lane r d l s).
Proof.
  intros [Hv Hc].
  destruct (spawn_lane_cases r d l s) as [-> | [Hlt ->]]; [by split |].
  split; simpl.
  - intros k v. rewrite lookup_insert. case_decide as Hk.
    + intros [= <-]. subst k. simpl. repeat split; [lia | discriminate].
    + intros Hl. destruct (Hv k v Hl) as (? & ? & ?).
      repeat split; [lia | assumption ..].
  - intros d' l'. unfold spawned_lane_count.
    destruct (decide (d = d' ∧ l = l')) as [[<- <-] | Hne].
    + etrans; [apply size_filter_insert |].
      pose proof (spawned_le_lane_count d l (vehicles s)).
      unfold spawned_lane_count in *. lia.
    + etrans; [apply size_filter_insert_not | apply Hc].
      simpl. intros Hin. by apply spawned_in_lane_init in Hin.
Qed.

Lemma sim_inv_after_spawn (draws : Direction → LaneType → Q) (s : t) :
  sim_inv s → sim_inv (after_spawn draws s).
Proof.
  intros I. unfold after_spawn.
  apply (spawn_vehicles_keeps sim_inv).
  - intros r d l s'. apply sim_inv_spawn_lane.
  - exact I.
Qed.

(** The keys the update loop collects: those of the passed vehicles. *)
Lemma elem_of_vehicles_to_remove (vs : gmap Z Vehicle.t) (k : Z) :
  k ∈ vehicles_to_remove vs
  ↔ ∃ v, vs !! k = Some v ∧ Vehicle.passed v = true.
Proof.
  unfold vehicles_to_remove. rewrite list_elem_of_fmap. split.
  - intros ([k' v] & -> & Hin). apply elem_of_map_to_list in Hin.
    apply map_lookup_filter_Some in Hin as [Hl Hp]. eauto.
  - intros (v & Hl & Hp). exists (k, v). split; [reflexivity |].
    apply elem_of_map_to_list, map_lookup_filter_Some. auto.
Qed.

(** The map a step leaves: the updated vehicles that have not passed. *)
Lemma step_vehicles_lookup (p : Z) (draws : Direction → LaneType → Q)
    (s : t) (k : Z) (v : Vehicle.t) :
  vehicles (step p draws s) !! k = Some v
  ↔ ∃ w, vehicles (after_spawn draws s) !! k = Some w
         ∧ v = Vehicle.update p true w ∧ Vehicle.passed v = false.
Proof.
  unfold step, collect_metrics; cbn [vehicles].
  rewrite lookup_foldr_delete. unfold updated_vehicles.
  destruct (decide (k ∈ _)) as [Hin | Hnin].
  - apply elem_of_vehicles_to_remove in Hin as (u & Hl & Hp).
    split; [discriminate |]. intros (w & Hw & -> & Hf).
    rewrite lookup_fmap, Hw in Hl. simpl in Hl. congruence.
  - rewrite lookup_fmap. split.
    + intros Hl. destruct (vehicles (after_spawn draws s) !! k) as [w |] eqn:E;
        [| discriminate]. simpl in Hl. injection Hl as <-.
      exists w. repeat split.
      destruct (Vehicle.passed (Vehicle.update p true w)) eqn:Hp;
        [| reflexivity].
      destruct Hnin. apply elem_of_vehicles_to_remove.
      exists (Vehicle.update p true w). rewrite lookup_fmap, E. auto.
    + intros (w & -> & -> & _). reflexivity.
Qed.

(** [step], with the state after the spawn process named. *)
Lemma step_after_spawn (p : Z) (draws : Direction → LaneType → Q) (s : t) :
  ∀ s1, s1 = after_spawn draws s →
  step p draws s
  = collect_metrics p
      (Z.of_nat (length (vehicles_to_remove (updated_vehicles p s1))))
      (mk (foldr delete (updated_vehicles p s1)
             (vehicles_to_remove (updated_vehicles p s1)))
          (next_vehicle_id s1) (current_step s1) (metrics_collector s1)
          (spawn_probabilities s1)
          (total_passed_vehicles s1
           + Z.of_nat (length (vehicles_to_remove (updated_vehicles p s1))))).
Proof. intros s1 ->. reflexivity. Qed.

(** What the first two statements of [step] leave alone. *)
Lemma after_spawn_frame (draws : Direction → LaneType → Q) (s : t) :
  current_step (after_spawn draws s) = (current_step s + 1)%Z
  ∧ metrics_collector (after_spawn draws s) = metrics_collector s
  ∧ spawn_probabilities (after_spawn draws s) = spawn_probabilities s
  ∧ total_passed_vehicles (after_spawn draws s) = total_passed_vehicles s.
Proof.
  unfold after_spawn.
  destruct (spawn_vehicles_frame draws
    (mk (vehicles s) (next_vehicle_id s) (current_step s + 1)
        (metrics_collector s) (spawn_probabilities s)
        (total_passed_vehicles s))) as (-> & -> & -> & ->).
  repeat split.
Qed.

(** The fields of the state a step leaves, from the state after the
    spawn process. *)
Lemma collect_metrics_fields (p : Z) (removed : list Z)
    (vs : gmap Z Vehicle.t) (s1 : t) :
  let s' := collect_metrics p (Z.of_nat (length removed))
              (mk vs (next_vehicle_id s1) (current_step s1)
                 (metrics_collector s1) (spawn_probabilities s1)
                 (total_passed_vehicles s1 + Z.of_nat (length removed))) in
  next_vehicle_id s' = next_vehicle_id s1
  ∧ current_step s' = current_step s1
  ∧ spawn_probabilities s' = spawn_probabilities s1
  ∧ metrics_collector s'
    = TrafficMetricsCollector.update_metrics (snapshot <$> vs) p
        (current_step s1) (Z.of_nat (length removed))
        (total_passed_vehicles s1 + Z.of_nat (length removed))
        (metrics_collector s1).
Proof. repeat split. Qed.

Lemma step_fields (p : Z) (draws : Direction → LaneType → Q) (s : t) :
  next_vehicle_id (step p draws s) = next_vehicle_id (after_spawn draws s)
  ∧ current_step (step p draws s) = current_step (after_spawn draws s)
  ∧ spawn_probabilities (step p draws s)
    = spawn_probabilities (after_spawn draws s)
  ∧ metrics_collector (step p draws s)
    = TrafficMetricsCollector.update_metrics
        (snapshot <$> foldr delete
                        (updated_vehicles p (after_spawn draws s))
                        (vehicles_to_remove
                           (updated_vehicles p (after_spawn draws s))))
        p (current_step (after_spawn draws s))
        (Z.of_nat (length (vehicles_to_remove
                             (updated_vehicles p (after_spawn draws s)))))
        (total_passed_vehicles (after_spawn draws s)
         + Z.of_nat (length (vehicles_to_remove
                               (updated_vehicles p (after_spawn draws s)))))
        (metrics_collector (after_spawn draws s)).
Proof.
  rewrite (step_after_spawn p draws s (after_spawn draws s) eq_refl).
  apply collect_metrics_fields.
Qed.

Lemma step_next_vehicle_id (p : Z) (draws : Direction → LaneType → Q)
    (s : t) :
  next_vehicle_id (step p draws s) = next_vehicle_id (after_spawn draws s).
Proof. apply step_fields. Qed.

Lemma step_vehicles_subseteq (p : Z) (draws : Direction → LaneType → Q)
    (s : t) :
  vehicles (step p draws s)
  ⊆ Vehicle.update p true <$> vehicles (after_spawn draws s).
Proof. apply foldr_delete_subseteq. Qed.

Lemma sim_inv_step (p : Z) (draws : Direction → LaneType → Q) (s : t) :
  sim_inv s → sim_inv (step p draws s).
Proof.
  intros I. apply (sim_inv_after_spawn draws) in I as [Hv Hc]. split.
  - intros k v Hl. rewrite step_next_vehicle_id.
    apply step_vehicles_lookup in Hl as (w & Hw & -> & Hp).
    destruct (Hv k w Hw) as (Hk & _ & Ht).
    repeat split; [exact Hk | exact Hp |].
    destruct (update_constants p true w) as (_ & _ & _ & -> & _).
    intros T.
    destruct (update_has_turned p true w) as [E | (_ & L & _)]; [| exact L].
    apply Ht. congruence.
  - intros d l. etrans; [| apply (Hc d l)]. unfold spawned_lane_count.
    etrans; [apply size_filter_subseteq, step_vehicles_subseteq |].
    rewrite size_filter_fmap. apply size_filter_mono.
    intros k v _. simpl. apply update_spawned_in_lane.
Qed.

Lemma sim_inv_init : sim_inv init.
Proof.
  split; simpl.
  - intros k v. rewrite lookup_empty. discriminate.
  - intros d l. unfold spawned_lane_count.
    rewrite map_filter_empty, map_size_empty. lia.
Qed.

Lemma sim_inv_exec (c : call) (s : t) : sim_inv s → sim_inv (exec s c).
Proof.
  destruct c as [p draws |]; simpl.
  - apply sim_inv_step.
  - intros _. destruct sim_inv_init as [Hv Hc]. split; [exact Hv | exact Hc].
Qed.

Lemma sim_inv_run (cs : list call) (s : t) : sim_inv s → sim_inv (run cs s).
Proof.
  revert s. induction cs as [| c cs IH]; intros s I; simpl; [exact I |].
  apply IH, sim_inv_exec, I.
Qed.

Lemma run_app (cs1 cs2 : list call) (s : t) :
  run (cs1 ++ cs2) s = run cs2 (run cs1 s).
Proof. unfold run. apply foldl_app. Qed.

(** No call changes the spawn probabilities. *)
Lemma exec_spawn_probabilities (c : call) (s : t) :
  spawn_probabilities (exec s c) = spawn_probabilities s.
Proof.
  destruct c as [p draws |]; [| reflexivity].
  unfold exec. destruct (step_fields p draws s) as (_ & _ & -> & _).
  apply after_spawn_frame.
Qed.

Lemma run_spawn_probabilities (cs : list call) (s : t) :
  spawn_probabilities (run cs s) = spawn_probabilities s.
Proof.
  revert s. induction cs as [| c cs IH]; intros s; simpl; [reflexivity |].
  rewrite IH. apply exec_spawn_probabilities.
Qed.

End Simulation.

(** ** Removal of the passed vehicles *)

Section Removal.
Import TrafficSimulation.

(** An identifier below the counter and absent from the map stays
    absent through the spawn process. *)
Lemma after_spawn_absent (draws : Direction → LaneType → Q) (s : t) (k : Z) :
  (k < next_vehicle_id s)%Z → vehicles s !! k = None →
  (k < next_vehicle_id (after_spawn draws s))%Z
  ∧ vehicles (after_spawn draws s) !! k = None.
Proof.
  intros Hk Hn. unfold after_spawn.
  apply (spawn_vehicles_keeps
    (λ s', (k < next_vehicle_id s')%Z ∧ vehicles s' !! k = None));
    [| by split].
  intros r d l s' [Hk' Hn'].
  destruct (spawn_lane_cases r d l s') as [-> | [_ ->]]; [by split |].
  simpl. split; [lia |]. rewrite lookup_insert_ne by lia. exact Hn'.
Qed.

Lemma step_absent (p : Z) (draws : Direction → LaneType → Q) (s : t)
    (k : Z) :
  (k < next_vehicle_id s)%Z → vehicles s !! k = None →
  (k < next_vehicle_id (step p draws s))%Z
  ∧ vehicles (step p draws s) !! k = None.
Proof.
  intros Hk Hn. destruct (after_spawn_absent draws s k Hk Hn) as [Hk' Hn'].
  split; [rewrite step_next_vehicle_id; exact Hk' |].
  destruct (vehicles (step p draws s) !! k) as [v |] eqn:E; [| reflexivity].
  apply step_vehicles_lookup in E as (w & Hw & _). congruence.
Qed.

Lemma steps_absent (later : list (Z * (Direction → LaneType → Q))) (s : t)
    (k : Z) :
  (k < next_vehicle_id s)%Z → vehicles s !! k = None →
  vehicles (run (steps later) s) !! k = None.
Proof.
  revert s. induction later as [| c later IH]; intros s Hk Hn; simpl;
    [exact Hn |].
  destruct (step_absent c.1 c.2 s k Hk Hn) as [Hk' Hn']. by apply IH.
Qed.

(** The counter after a step: the number of passed vehicles the update
    loop found is added. *)
Lemma step_total_passed (p : Z) (draws : Direction → LaneType → Q) (s : t) :
  total_passed_vehicles (step p draws s)
  = (total_passed_vehicles s
     + Z.of_nat (size (filter
         (λ kv, Vehicle.passed (Vehicle.update p true kv.2) = true)
         (vehicles (after_spawn draws s)))))%Z.
Proof.
  unfold step, collect_metrics; cbn [total_passed_vehicles].
  unfold vehicles_to_remove, updated_vehicles.
  rewrite length_fmap, length_map_to_list.
  rewrite (size_filter_fmap (λ kv, Vehicle.passed kv.2 = true)).
  unfold after_spawn at 1.
  by destruct (spawn_vehicles_frame draws
    (mk (vehicles s) (next_vehicle_id s) (current_step s + 1)
        (metrics_collector s) (spawn_probabilities s)
        (total_passed_vehicles s))) as (_ & _ & _ & ->).
Qed.

Lemma steps_total_passed_mono
    (later : list (Z * (Direction → LaneType → Q))) (s : t) :
  (total_passed_vehicles s
   ≤ total_passed_vehicles (run (steps later) s))%Z.
Proof.
  revert s. induction later as [| c later IH]; intros s; simpl; [lia |].
  etrans; [| apply IH]. rewrite step_total_passed. lia.
Qed.

End Removal.

(** ** Properties of the simulation *)

(** C9: after any sequence of steps and resets, [reset] leaves the state
    of a freshly constructed simulation: empty vehicle map, identifier
    counter, tick counter and cumulative passed count 0, and the metrics
    collector as constructed. *)
Theorem reset_restores_construction (cs : list TrafficSimulation.call) :
  let s := TrafficSimulation.reset
             (TrafficSimulation.run cs TrafficSimulation.init) in
  s = TrafficSimulation.init
  ∧ TrafficSimulation.vehicles s = ∅
  ∧ TrafficSimulation.next_vehicle_id s = 0%Z
  ∧ TrafficSimulation.current_step s = 0%Z
  ∧ TrafficSimulation.total_passed_vehicles s = 0%Z
  ∧ TrafficSimulation.metrics_collector s = TrafficMetricsCollector.init.
Proof.
  simpl. repeat split. unfold TrafficSimulation.reset.
  rewrite run_spawn_probabilities. reflexivity.
Qed.

(** C1 (as stated, refuted): in [left_turn_run], four west-left vehicles
    wait under phase 2 while the north-left vehicle turns left into the
    west heading at tick 33; right after the spawn phase of tick 34 the
    lane (west, left) holds 5 active vehicles. *)
Lemma left_lane_exceeds_capacity :
  TrafficSimulation.lane_count West Left
    (TrafficSimulation.vehicles
       (TrafficSimulation.after_spawn never
          (TrafficSimulation.run (left_turn_run 29) TrafficSimulation.init)))
  = 5%nat
  ∧ ¬ (TrafficSimulation.lane_count West Left
         (TrafficSimulation.vehicles
            (TrafficSimulation.after_spawn never
               (TrafficSimulation.run (left_turn_run 29)
                  TrafficSimulation.init)))
       ≤ 4)%nat.
Proof.
  assert (TrafficSimulation.lane_count West Left
            (TrafficSimulation.vehicles
               (TrafficSimulation.after_spawn never
                  (TrafficSimulation.run (left_turn_run 29)
                     TrafficSimulation.init)))
          = 5%nat) as E by (vm_compute; reflexivity).
  split; [exact E |]. rewrite E. lia.
Qed.

(** C1 (amended): right after the spawn phase of every step, every lane
    holds at most 4 active vehicles that were spawned into it, that is,
    that have not turned; a straight lane holds at most 4 active
    vehicles in all. *)
Theorem spawned_vehicles_within_capacity (cs : list TrafficSimulation.call)
    (draws : Direction → LaneType → Q) (d : Direction) (l : LaneType) :
  let s := TrafficSimulation.after_spawn draws
             (TrafficSimulation.run cs TrafficSimulation.init) in
  (spawned_lane_count d l (TrafficSimulation.vehicles s) ≤ 4)%nat
  ∧ (TrafficSimulation.lane_count d Straight (TrafficSimulation.vehicles s)
     ≤ 4)%nat.
Proof.
  intros s.
  assert (sim_inv s) as [Hv Hc]
    by apply sim_inv_after_spawn, sim_inv_run, sim_inv_init.
  split; [apply Hc |].
  etrans; [| apply (Hc d Straight)].
  apply size_filter_mono. intros k v Hl. simpl. intros Hin.
  unfold spawned_in_lane. rewrite Hin. simpl.
  destruct (Hv k v Hl) as (_ & _ & Ht).
  destruct (Vehicle.has_turned v); [| reflexivity].
  unfold TrafficSimulation.in_lane in Hin.
  rewrite !andb_true_iff, !bool_decide_eq_true in Hin.
  destruct Hin as (((_ & L) & _) & _). rewrite (Ht eq_refl) in L. discriminate.
Qed.

(** C6: a vehicle whose [passed] flag becomes true in a step is gone
    from the map when the step returns and stays absent through all
    later steps; the step adds the number of such vehicles to
    [total_passed_vehicles], which no step ever decreases. *)
Theorem passed_vehicles_removed (cs : list TrafficSimulation.call)
    (p : Z) (draws : Direction → LaneType → Q) (k : Z) :
  let s := TrafficSimulation.run cs TrafficSimulation.init in
  becomes_passed p
    <$> TrafficSimulation.vehicles (TrafficSimulation.after_spawn draws s) !! k
  = Some true →
  let s' := TrafficSimulation.step p draws s in
  TrafficSimulation.vehicles s' !! k = None
  ∧ (∀ later,
       TrafficSimulation.vehicles (TrafficSimulation.run (steps later) s') !! k
       = None)
  ∧ TrafficSimulation.total_passed_vehicles s'
    = (TrafficSimulation.total_passed_vehicles s
       + Z.of_nat (size (filter (λ kv, becomes_passed p kv.2 = true)
                     (TrafficSimulation.vehicles
                        (TrafficSimulation.after_spawn draws s)))))%Z
  ∧ (∀ later,
       (TrafficSimulation.total_passed_vehicles s
        ≤ TrafficSimulation.total_passed_vehicles s'
        ≤ TrafficSimulation.total_passed_vehicles
            (TrafficSimulation.run (steps later) s'))%Z).
Proof.
  intros s Hk s'.
  assert (sim_inv (TrafficSimulation.after_spawn draws s)) as [Hv _]
    by apply sim_inv_after_spawn, sim_inv_run, sim_inv_init.
  destruct (TrafficSimulation.vehicles
              (TrafficSimulation.after_spawn draws s) !! k)
    as [w |] eqn:Hw; [| discriminate].
  simpl in Hk. injection Hk as Hk.
  apply andb_true_iff in Hk as [_ Hp].
  assert (TrafficSimulation.vehicles s' !! k = None) as Hgone.
  { destruct (TrafficSimulation.vehicles s' !! k) as [v |] eqn:E;
      [| reflexivity].
    apply step_vehicles_lookup in E as (w' & Hw' & -> & Hf). congruence. }
  assert (TrafficSimulation.total_passed_vehicles s'
          = (TrafficSimulation.total_passed_vehicles s
             + Z.of_nat (size (filter (λ kv, becomes_passed p kv.2 = true)
                           (TrafficSimulation.vehicles
                              (TrafficSimulation.after_spawn draws s)))))%Z)
    as Htot.
  { unfold s'. rewrite step_total_passed. do 3 f_equal.
    apply map_filter_ext. intros j u Hu. simpl.
    destruct (Hv j u Hu) as (_ & Hf & _).
    unfold becomes_passed. rewrite Hf. reflexivity. }
  split; [exact Hgone |]. split; [| split; [exact Htot |]].
  - intros later. apply steps_absent; [| exact Hgone].
    unfold s'. rewrite step_next_vehicle_id. by destruct (Hv k w Hw).
  - intros later. split; [rewrite Htot; lia | apply steps_total_passed_mono].
Qed.

Lemma passed_vehicles_removed_witness :
  TrafficSimulation.vehicles
    (TrafficSimulation.step 0 never
       (TrafficSimulation.run (straight_run 56) TrafficSimulation.init)) !! 0%Z
  = None
  ∧ TrafficSimulation.total_passed_vehicles
      (TrafficSimulation.step 0 never
         (TrafficSimulation.run (straight_run 56) TrafficSimulation.init))
    = 1%Z.
Proof.
  destruct (passed_vehicles_removed (straight_run 56) 0 never 0)
    as (Hgone & _ & Htot & _).
  - vm_compute. reflexivity.
  - split; [exact Hgone |]. rewrite Htot. vm_compute. reflexivity.
Defined.

(** ** More on the lifetime of a vehicle *)

Section Lifetime.
Import Vehicle.

Lemma move_position (v : t) :
  direction (move v) = direction v
  ∧ prev_x (move v) = x (move v) ∧ prev_y (move v) = y (move v)
  ∧ lateral (direction v) (x (move v)) (y (move v))
    = lateral (direction v) (x v) (y v).
Proof.
  unfold move. destruct (direction v) eqn:D; simpl; rewrite ?D;
    repeat split; reflexivity.
Qed.

Lemma check_passed_passed (v : t) :
  passed (check_passed v) = passed v || beyond_exit v
  ∧ beyond_exit (check_passed v) = beyond_exit v
  ∧ prev_x (check_passed v) = prev_x v ∧ prev_y (check_passed v) = prev_y v.
Proof.
  unfold check_passed, beyond_exit.
  destruct (direction v) eqn:D;
    match goal with |- context [if ?b then _ else _] =>
      destruct b eqn:B end; simpl; rewrite ?D, ?B;
    repeat split; try reflexivity;
    destruct (passed v); reflexivity.
Qed.

Lemma turn_left_position (v : t) :
  lateral (direction (_turn_left v)) (x (_turn_left v)) (y (_turn_left v))
  = lane_offset (direction (_turn_left v)) Left
  ∧ in_intersection (_turn_left v) = true.
Proof. unfold _turn_left. destruct (direction v); split; reflexivity. Qed.

Lemma lifetime_inv_init (i : Z) (d : Direction) (l : LaneType) (st : Z) :
  lifetime_inv d l (init i d l st).
Proof.
  unfold lifetime_inv, init; simpl.
  repeat split; destruct d, l; reflexivity.
Qed.

Lemma lifetime_inv_update (d0 : Direction) (l0 : LaneType) (p : Z)
    (c : bool) (v : t) :
  lifetime_inv d0 l0 v → lifetime_inv d0 l0 (update p c v).
Proof.
  intros I. destruct (passed v || collided v) eqn:H.
  { rewrite (update_terminal p c v H). exact I. }
  destruct I as (Ipx & Ipy & Ic & Il & Id & Ilat & Ip).
  rewrite (update_active p c v H). cbv zeta.
  pose proof (adjust_speed_fields (should_wait v p) (in_intersection v) v)
    as Ha. cbv zeta in Ha.
  remember (adjust_speed (should_wait v p)
              (set_in_intersection_zone (in_intersection v) v)) as v2.
  destruct Ha as (_ & _ & _ & Ht2 & Hl2 & Hd2 & Hc2 & Hp2 & Hx2 & Hy2).
  apply orb_false_iff in H as [Hpv _].
  assert (∀ w, passed w = false → collided w = false → lane_type w = l0 →
            (has_turned w = false → direction w = d0) →
            lateral (direction w) (x w) (y w)
            = lane_offset (direction w) (lane_type w) →
            lifetime_inv d0 l0 (check_passed (move w))) as Hfin.
  { intros w Wp Wc Wl Wd Wlat.
    destruct (check_passed_fields (move w))
      as (_ & _ & _ & _ & _ & Et & El & Ed & Ec & Ex & Ey).
    destruct (check_passed_passed (move w)) as (Ep & Eb & Epx & Epy).
    destruct (move_fields w) as (_ & _ & _ & _ & _ & Mt & Ml & Md & Mc & Mp).
    destruct (move_position w) as (_ & Mpx & Mpy & Mlat).
    unfold lifetime_inv.
    rewrite Epx, Epy, Ex, Ey, Ec, El, Et, Ed, Ep, Eb, Mc, Ml, Mt, Md, Mp, Wp.
    repeat split; try assumption.
    rewrite Mlat. exact Wlat. }
  destruct (negb (should_wait v p) && _should_turn_left_now v2) eqn:B.
  - apply andb_true_iff in B as [_ B].
    apply should_turn_left_now_left in B as [Bl _].
    destruct (turn_left_fields v2) as (_ & _ & _ & _ & _ & Tt & Tl & Tc & Tp).
    destruct (turn_left_position v2) as [Tlat _].
    apply Hfin; try congruence.
    all: try (rewrite Tl, Bl; exact Tlat).
  - apply Hfin; try congruence.
    all: try (intros T; rewrite Hd2; apply Id; congruence).
    all: try (rewrite Hd2, Hx2, Hy2, Hl2; exact Ilat).
Qed.

Lemma lifetime_inv_updates (d0 : Direction) (l0 : LaneType)
    (calls : list (Z * bool)) (v : t) :
  lifetime_inv d0 l0 v → lifetime_inv d0 l0 (updates calls v).
Proof.
  revert v. induction calls as [| c calls IH]; intros v I; simpl; [exact I |].
  apply IH, lifetime_inv_update, I.
Qed.

Lemma updates_waiting_time (calls : list (Z * bool)) (v : t) :
  (waiting_time v ≤ waiting_time (updates calls v)
   ≤ waiting_time v + Z.of_nat (length calls))%Z.
Proof.
  revert v. induction calls as [| c calls IH]; intros v; simpl; [lia |].
  specialize (IH (update c.1 c.2 v)).
  assert (waiting_time v ≤ waiting_time (update c.1 c.2 v)
          ≤ waiting_time v + 1)%Z; [| lia].
  destruct (passed v || collided v) eqn:H.
  - rewrite (update_terminal c.1 c.2 v H). lia.
  - rewrite (update_waiting_time c.1 c.2 v H).
    destruct (should_wait v c.1); lia.
Qed.

End Lifetime.

(** X1: through the whole life of a vehicle the previous position equals
    the current one, because [move] overwrites it after moving; so
    [_crossed_centerline] is false in every state. *)
Theorem crossed_centerline_never (i : Z) (d : Direction) (l : LaneType)
    (st : Z) (calls : list (Z * bool)) :
  let v := updates calls (Vehicle.init i d l st) in
  Vehicle.prev_x v = Vehicle.x v ∧ Vehicle.prev_y v = Vehicle.y v
  ∧ Vehicle._crossed_centerline v = false.
Proof.
  intros v.
  destruct (lifetime_inv_updates d l calls _ (lifetime_inv_init i d l st))
    as (Hx & Hy & _).
  fold v in Hx, Hy. split; [exact Hx |]. split; [exact Hy |].
  unfold Vehicle._crossed_centerline. rewrite Hx, Hy.
  destruct (Vehicle.direction v); apply andb_false_iff.
  - destruct (Qltb (Vehicle.y v) 0) eqn:E; [right | by left].
    apply Qltb_lt in E. apply not_true_is_false. intros F.
    apply Qle_bool_iff in F. lra.
  - destruct (Qltb 0 (Vehicle.y v)) eqn:E; [right | by left].
    apply Qltb_lt in E. apply not_true_is_false. intros F.
    apply Qle_bool_iff in F. lra.
  - destruct (Qltb (Vehicle.x v) 0) eqn:E; [right | by left].
    apply Qltb_lt in E. apply not_true_is_false. intros F.
    apply Qle_bool_iff in F. lra.
  - destruct (Qltb 0 (Vehicle.x v)) eqn:E; [right | by left].
    apply Qltb_lt in E. apply not_true_is_false. intros F.
    apply Qle_bool_iff in F. lra.
Qed.

(** X2: a vehicle stays on the lane line of its heading: its lateral
    coordinate is the spawn offset of the lane (current direction, lane
    type), before and after a left turn; its lane type never changes,
    and it keeps its initial direction as long as it has not turned,
    which a straight-lane vehicle never does. *)
Theorem vehicle_keeps_lane (i : Z) (d : Direction) (l : LaneType)
    (st : Z) (calls : list (Z * bool)) :
  let v := updates calls (Vehicle.init i d l st) in
  lateral (Vehicle.direction v) (Vehicle.x v) (Vehicle.y v)
  = lane_offset (Vehicle.direction v) l
  ∧ Vehicle.lane_type v = l
  ∧ (Vehicle.has_turned v = false → Vehicle.direction v = d)
  ∧ (l = Straight → Vehicle.has_turned v = false).
Proof.
  intros v.
  destruct (lifetime_inv_updates d l calls _ (lifetime_inv_init i d l st))
    as (_ & _ & _ & Hl & Hd & Hlat & _).
  fold v in Hl, Hd, Hlat. rewrite Hl in Hlat.
  split; [exact Hlat |]. split; [exact Hl |]. split; [exact Hd |].
  intros ->.
  destruct (vehicle_inv_updates calls _ (vehicle_inv_init i d Straight st))
    as (_ & _ & _ & _ & Ht).
  fold v in Ht. destruct (Vehicle.has_turned v); [| reflexivity].
  destruct (Ht eq_refl) as [L _]. congruence.
Qed.

(** X3: the waiting time of a vehicle never decreases, grows by at most
    one per update, and so lies between 0 and the number of updates the
    vehicle has received. *)
Theorem waiting_time_bounded (i : Z) (d : Direction) (l : LaneType)
    (st : Z) (calls later : list (Z * bool)) :
  let v := updates calls (Vehicle.init i d l st) in
  (0 ≤ Vehicle.waiting_time v ≤ Z.of_nat (length calls))%Z
  ∧ (Vehicle.waiting_time v ≤ Vehicle.waiting_time (updates later v)
     ≤ Vehicle.waiting_time v + Z.of_nat (length later))%Z.
Proof.
  intros v. split.
  - pose proof (updates_waiting_time calls (Vehicle.init i d l st)) as H.
    simpl in H. exact H.
  - apply updates_waiting_time.
Qed.

(** X4: in every state of its life a vehicle is marked passed exactly
    when it is more than 60 units out on the far side of its heading;
    it is never marked collided; and a passed vehicle is frozen: further
    updates leave it as it is. *)
Theorem passed_iff_beyond_exit (i : Z) (d : Direction) (l : LaneType)
    (st : Z) (calls later : list (Z * bool)) :
  let v := updates calls (Vehicle.init i d l st) in
  Vehicle.passed v = beyond_exit v
  ∧ Vehicle.collided v = false
  ∧ (Vehicle.passed v = true → updates later v = v).
Proof.
  intros v.
  destruct (lifetime_inv_updates d l calls _ (lifetime_inv_init i d l st))
    as (_ & _ & Hc & _ & _ & _ & Hp).
  split; [exact Hp |]. split; [exact Hc |].
  intros P. induction later as [| c later IH]; simpl; [reflexivity |].
  rewrite update_terminal; [exact IH |]. fold v. rewrite P. reflexivity.
Qed.

Lemma passed_iff_beyond_exit_witness :
  updates [(1%Z, true); (3%Z, false)]
    (updates (replicate 58 (0%Z, true)) (Vehicle.init 0 North Straight 0))
  = updates (replicate 58 (0%Z, true)) (Vehicle.init 0 North Straight 0).
Proof.
  apply (passed_iff_beyond_exit 0 North Straight 0 (replicate 58 (0%Z, true))).
  vm_compute. reflexivity.
Defined.

(** ** Bookkeeping of the simulation *)

Section Bookkeeping.
Import TrafficSimulation.

Lemma update_identity (p : Z) (c : bool) (v : Vehicle.t) :
  Vehicle.id (Vehicle.update p c v) = Vehicle.id v
  ∧ Vehicle.spawn_time (Vehicle.update p c v) = Vehicle.spawn_time v.
Proof.
  assert (∀ w, Vehicle.id (Vehicle.check_passed w) = Vehicle.id w
               ∧ Vehicle.spawn_time (Vehicle.check_passed w)
                 = Vehicle.spawn_time w) as Hc.
  { intros w. unfold Vehicle.check_passed.
    destruct (Vehicle.direction w);
      match goal with |- context [if ?b then _ else _] => destruct b end;
      split; reflexivity. }
  assert (∀ w, Vehicle.id (Vehicle.move w) = Vehicle.id w
               ∧ Vehicle.spawn_time (Vehicle.move w) = Vehicle.spawn_time w)
    as Hm.
  { intros w. unfold Vehicle.move.
    destruct (Vehicle.direction w); split; reflexivity. }
  assert (∀ w, Vehicle.id (Vehicle._turn_left w) = Vehicle.id w
               ∧ Vehicle.spawn_time (Vehicle._turn_left w)
                 = Vehicle.spawn_time w) as Ht.
  { intros w. unfold Vehicle._turn_left.
    destruct (Vehicle.direction w); split; reflexivity. }
  assert (∀ sw b w,
            Vehicle.id (Vehicle.adjust_speed sw
                          (Vehicle.set_in_intersection_zone b w))
            = Vehicle.id w
            ∧ Vehicle.spawn_time (Vehicle.adjust_speed sw
                                    (Vehicle.set_in_intersection_zone b w))
              = Vehicle.spawn_time w) as Ha.
  { intros sw b w. unfold Vehicle.adjust_speed.
    destruct sw; [destruct (Vehicle.approaching_intersection _) |];
      split; reflexivity. }
  destruct (Vehicle.passed v || Vehicle.collided v) eqn:H.
  - rewrite (update_terminal p c v H). split; reflexivity.
  - rewrite (update_active p c v H). cbv zeta.
    match goal with |- context [Vehicle.check_passed ?w] =>
      destruct (Hc w) as [-> ->] end.
    match goal with |- context [Vehicle.move ?w] =>
      destruct (Hm w) as [-> ->] end.
    match goal with |- context [if ?b then _ else _] => destruct b end;
      rewrite ?(proj1 (Ht _)), ?(proj2 (Ht _)); apply Ha.
Qed.

Lemma size_filter_split {A : Type} (P : Z * A → Prop)
    `{!∀ x, Decision (P x)} (m : gmap Z A) :
  (size (filter P m) + size (filter (λ kv, ¬ P kv) m) = size m)%nat.
Proof.
  rewrite <- (map_size_disj_union _ _ (map_disjoint_filter_complement P m)).
  by rewrite map_filter_union_complement.
Qed.

(** The map a step leaves, as a filter of the updated map. *)
Lemma step_vehicles_filter (p : Z) (draws : Direction → LaneType → Q)
    (s : t) :
  vehicles (step p draws s)
  = filter (λ kv, ¬ (Vehicle.passed kv.2 = true))
      (updated_vehicles p (after_spawn draws s)).
Proof.
  apply map_eq. intros k. apply option_eq. intros v.
  rewrite step_vehicles_lookup, map_lookup_filter_Some.
  unfold updated_vehicles. rewrite lookup_fmap. cbn [snd].
  destruct (vehicles (after_spawn draws s) !! k) as [w |].
  - change (Vehicle.update p true <$> Some w)
      with (Some (Vehicle.update p true w)).
    split.
    + intros (w' & [= <-] & -> & Hp). split; [reflexivity | congruence].
    + intros [[= <-] Hp]. exists w. repeat split.
      by destruct (Vehicle.passed (Vehicle.update p true w)).
  - split; [intros (w' & [=] & _) | intros [[=] _]].
Qed.

Lemma step_size (p : Z) (draws : Direction → LaneType → Q) (s : t) :
  (size (vehicles (step p draws s))
   + size (filter (λ kv, Vehicle.passed (Vehicle.update p true kv.2) = true)
             (vehicles (after_spawn draws s)))
   = size (vehicles (after_spawn draws s)))%nat.
Proof.
  rewrite step_vehicles_filter.
  assert (size (filter
            (λ kv, Vehicle.passed (Vehicle.update p true kv.2) = true)
            (vehicles (after_spawn draws s)))
          = size (filter (λ kv, Vehicle.passed kv.2 = true)
                    (updated_vehicles p (after_spawn draws s)))) as ->.
  { unfold updated_vehicles.
    rewrite (size_filter_fmap (λ kv, Vehicle.passed kv.2 = true)).
    reflexivity. }
  rewrite Nat.add_comm, size_filter_split.
  unfold updated_vehicles. apply map_size_fmap.
Qed.

Lemma fleet_inv_spawn_lane (r : Q) (d : Direction) (l : LaneType) (s : t) :
  sim_inv s ∧ fleet_inv s ∧ (1 ≤ current_step s)%Z →
  sim_inv (spawn_lane r d l s) ∧ fleet_inv (spawn_lane r d l s)
  ∧ (1 ≤ current_step (spawn_lane r d l s))%Z.
Proof.
  intros (I & (Hv & Hn & Ht) & Hs).
  split; [by apply sim_inv_spawn_lane |].
  destruct (spawn_lane_cases r d l s) as [-> | [_ ->]];
    [exact (conj (conj Hv (conj Hn Ht)) Hs) |].
  assert (vehicles s !! next_vehicle_id s = None) as Hfresh.
  { destruct (vehicles s !! next_vehicle_id s) as [v |] eqn:E; [| reflexivity].
    destruct I as [Ik _]. destruct (Ik _ _ E). lia. }
  split; [| exact Hs]. split; [| split]; simpl.
  - intros k v. rewrite lookup_insert. case_decide as Hk.
    + intros [= <-]. simpl. repeat split; [congruence | lia | lia | lia].
    + apply Hv.
  - rewrite map_size_insert_None by exact Hfresh. lia.
  - exact Ht.
Qed.

Lemma fleet_inv_step (p : Z) (draws : Direction → LaneType → Q) (s : t) :
  sim_inv s → fleet_inv s → (0 ≤ current_step s)%Z →
  fleet_inv (step p draws s)
  ∧ current_step (step p draws s) = (current_step s + 1)%Z.
Proof.
  intros I (Hv & Hn & Ht) Hs.
  assert (sim_inv (after_spawn draws s) ∧ fleet_inv (after_spawn draws s)
          ∧ (1 ≤ current_step (after_spawn draws s))%Z)
    as (_ & (Hv' & Hn' & Ht') & _).
  { unfold after_spawn.
    apply (spawn_vehicles_keeps
      (λ s', sim_inv s' ∧ fleet_inv s' ∧ (1 ≤ current_step s')%Z)).
    - intros r d l s'. apply fleet_inv_spawn_lane.
    - split; [exact I |]. split; [| simpl; lia].
      split; [| split]; simpl; [| exact Hn | exact Ht].
      intros k v Hl. destruct (Hv k v Hl) as (? & ? & ? & ?).
      repeat split; [assumption | assumption | lia | lia | assumption]. }
  destruct (after_spawn_frame draws s) as (Hstep' & _ & _ & Htot').
  assert (current_step (step p draws s) = (current_step s + 1)%Z) as Hstep.
  { rewrite <- Hstep'. apply step_fields. }
  split; [| exact Hstep]. split; [| split].
  - intros k v Hl. rewrite Hstep, <- Hstep'.
    apply step_vehicles_lookup in Hl as (w & Hw & -> & _).
    destruct (update_identity p true w) as [-> ->].
    destruct (update_constants p true w) as (_ & _ & _ & _ & ->).
    by apply Hv'.
  - rewrite step_next_vehicle_id, Hn', step_total_passed.
    pose proof (step_size p draws s). rewrite Htot'. lia.
  - rewrite step_total_passed. lia.
Qed.

Lemma mirror_inv_step (p : Z) (draws : Direction → LaneType → Q) (s : t) :
  mirror_inv s → mirror_inv (step p draws s).
Proof.
  intros (_ & _ & Hw & Hc). unfold mirror_inv.
  destruct (step_fields p draws s) as (_ & -> & _ & ->).
  rewrite step_total_passed.
  destruct (after_spawn_frame draws s) as (-> & -> & _ & ->).
  rewrite update_metrics_waiting_times.
  split; [reflexivity |]. split.
  - cbn [TrafficMetricsCollector.update_metrics
           TrafficMetricsCollector.total_passed_vehicles].
    f_equal. f_equal. unfold vehicles_to_remove.
    rewrite length_fmap, length_map_to_list. unfold updated_vehicles.
    rewrite (size_filter_fmap (λ kv, Vehicle.passed kv.2 = true)).
    reflexivity.
  - split; [lia | exact Hc].
Qed.

Lemma bookkeeping_run (cs : list call) (s : t) (n : Z) :
  sim_inv s → fleet_inv s → mirror_inv s → current_step s = n → (0 ≤ n)%Z →
  let s' := run cs s in
  sim_inv s' ∧ fleet_inv s' ∧ mirror_inv s'
  ∧ current_step s'
    = foldl (λ n c, match c with
                    | Step _ _ => (n + 1)%Z
                    | Reset => 0%Z
                    end) n cs
  ∧ (0 ≤ current_step s')%Z.
Proof.
  revert s n. induction cs as [| c cs IH]; intros s n I F M E Hn.
  { cbn [run foldl]. unfold run. cbn [foldl].
    split; [exact I |]. split; [exact F |]. split; [exact M |].
    split; [exact E | lia]. }
  change (run (c :: cs) s) with (run cs (exec s c)). cbn [foldl].
  destruct c as [p draws |]; cbn [exec].
  - destruct (fleet_inv_step p draws s I F ltac:(lia)) as [F' E'].
    apply IH; [by apply sim_inv_step | exact F' | by apply mirror_inv_step
              | lia | lia].
  - apply IH; [apply (sim_inv_exec Reset s I) | | | reflexivity | lia].
    + split; [| split]; cbn [reset vehicles next_vehicle_id
                             total_passed_vehicles];
        [| rewrite map_size_empty; reflexivity | lia].
      intros k v. rewrite lookup_empty. discriminate.
    + split; [reflexivity |]. split; [reflexivity |].
      split; reflexivity.
Qed.

Lemma bookkeeping_init (cs : list call) :
  let s := run cs init in
  sim_inv s ∧ fleet_inv s ∧ mirror_inv s ∧ current_step s = ticks cs.
Proof.
  destruct (bookkeeping_run cs init 0) as (I & F & M & E & _).
  - apply sim_inv_init.
  - split; [| split]; cbn [init vehicles next_vehicle_id
                           total_passed_vehicles];
      [| rewrite map_size_empty; reflexivity | lia].
    intros k v. rewrite lookup_empty. discriminate.
  - split; [reflexivity |]. split; [reflexivity |]. split; reflexivity.
  - reflexivity.
  - lia.
  - split; [exact I |]. split; [exact F |]. split; [exact M |]. exact E.
Qed.

End Bookkeeping.

(** X5: in every state reached by steps and resets, a vehicle of the map
    sits under its own identifier, which is between 0 and the next
    identifier; it was spawned at a tick between 1 and the current one;
    it is neither passed nor collided.  So the observation a step
    returns holds only active vehicles, with distinct identifiers. *)
Theorem vehicles_identified (cs : list TrafficSimulation.call) :
  let s := TrafficSimulation.run cs TrafficSimulation.init in
  (∀ k v, TrafficSimulation.vehicles s !! k = Some v →
     Vehicle.id v = k
     ∧ (0 ≤ k < TrafficSimulation.next_vehicle_id s)%Z
     ∧ (1 ≤ Vehicle.spawn_time v ≤ TrafficSimulation.current_step s)%Z
     ∧ Vehicle.passed v = false ∧ Vehicle.collided v = false)
  ∧ Forall (λ v, Vehicle.passed v = false ∧ Vehicle.collided v = false)
      (TrafficSimulation.get_observation s)
  ∧ NoDup (Vehicle.id <$> TrafficSimulation.get_observation s).
Proof.
  intros s.
  destruct (bookkeeping_init cs) as ([Ik _] & (Hv & Hn & Ht) & _ & _).
  fold s in Ik, Hv, Hn, Ht.
  assert (∀ k v, TrafficSimulation.vehicles s !! k = Some v →
     Vehicle.id v = k
     ∧ (0 ≤ k < TrafficSimulation.next_vehicle_id s)%Z
     ∧ (1 ≤ Vehicle.spawn_time v ≤ TrafficSimulation.current_step s)%Z
     ∧ Vehicle.passed v = false ∧ Vehicle.collided v = false) as Hall.
  { intros k v Hl. destruct (Hv k v Hl) as (Hid & Hk0 & Hsp & Hc).
    destruct (Ik k v Hl) as (Hk & Hp & _).
    repeat split; try assumption; lia. }
  split; [exact Hall |]. split.
  - apply Forall_forall. intros v Hin.
    unfold TrafficSimulation.get_observation in Hin.
    apply list_elem_of_fmap in Hin as ([k w] & -> & Hin).
    apply elem_of_map_to_list in Hin. simpl.
    destruct (Hall k w Hin) as (_ & _ & _ & ? & ?). by split.
  - unfold TrafficSimulation.get_observation.
    rewrite <- list_fmap_compose.
    rewrite (list_fmap_ext (Vehicle.id ∘ snd) fst
               (map_to_list (TrafficSimulation.vehicles s))).
    + apply NoDup_fst_map_to_list.
    + intros i [k w] Hin. simpl.
      apply list_elem_of_lookup_2, elem_of_map_to_list in Hin.
      by destruct (Hall k w Hin).
Qed.

(** X6: conservation of vehicles: the number of identifiers handed out
    is the number of vehicles in the map plus the cumulative number of
    passed vehicles. *)
Theorem vehicles_conserved (cs : list TrafficSimulation.call) :
  let s := TrafficSimulation.run cs TrafficSimulation.init in
  TrafficSimulation.next_vehicle_id s
  = (Z.of_nat (size (TrafficSimulation.vehicles s))
     + TrafficSimulation.total_passed_vehicles s)%Z
  ∧ (0 ≤ TrafficSimulation.total_passed_vehicles s)%Z
  ∧ length (TrafficSimulation.get_observation s)
    = size (TrafficSimulation.vehicles s).
Proof.
  intros s. destruct (bookkeeping_init cs) as (_ & (_ & Hn & Ht) & _).
  split; [exact Hn |]. split; [exact Ht |].
  unfold TrafficSimulation.get_observation.
  rewrite length_fmap. apply length_map_to_list.
Qed.

(** X7: the tick counter is the number of steps since the last reset,
    and the metrics collector mirrors the simulation: its [total_steps]
    is the tick counter, its [total_passed_vehicles] the cumulative
    passed count, it holds one waiting-time sample per tick, and its
    [collision_count] stays 0. *)
Theorem metrics_mirror_simulation (cs : list TrafficSimulation.call) :
  let s := TrafficSimulation.run cs TrafficSimulation.init in
  let m := TrafficSimulation.metrics_collector s in
  TrafficSimulation.current_step s = ticks cs
  ∧ TrafficMetricsCollector.total_steps m = ticks cs
  ∧ TrafficMetricsCollector.total_passed_vehicles m
    = TrafficSimulation.total_passed_vehicles s
  ∧ TrafficMetricsCollector.total_vehicles_passed
      (TrafficSimulation.get_metrics s)
    = TrafficSimulation.total_passed_vehicles s
  ∧ Z.of_nat (length (TrafficMetricsCollector.waiting_times m)) = ticks cs
  ∧ TrafficMetricsCollector.collision_count m = 0%Z.
Proof.
  intros s m.
  destruct (bookkeeping_init cs) as (_ & _ & (M1 & M2 & M3 & M4) & E).
  fold s in M1, M2, M3, M4, E. fold m in M1, M2, M3, M4.
  rewrite <- E. repeat split; assumption.
Qed.

(** ** The samples of the metrics collector *)

Section Samples.
Import TrafficMetricsCollector.

Lemma size_filter_insert_fresh {A : Type} (P : Z * A → Prop)
    `{!∀ x, Decision (P x)} (m : gmap Z A) (k : Z) (a : A) :
  m !! k = None →
  size (filter P (<[k:=a]> m))
  = if decide (P (k, a)) then S (size (filter P m)) else size (filter P m).
Proof.
  intros Hn. destruct (decide (P (k, a))) as [Hp | Hp].
  - rewrite map_filter_insert_True by exact Hp.
    apply map_size_insert_None, map_lookup_filter_None. by left.
  - rewrite map_filter_insert_False by exact Hp.
    by rewrite delete_id.
Qed.

Lemma deque_append_length {A : Type} (n : nat) (q : list A) (a : A) :
  (length q ≤ n)%nat →
  length (deque_append n q a) = Nat.min (S (length q)) n.
Proof.
  intros H. unfold deque_append. rewrite length_app. cbn [length].
  destruct (Nat.ltb_spec n (length q + 1)) as [Hlt | Hge].
  - destruct q as [| b q]; cbn [app tail length] in *.
    + destruct n; [reflexivity | lia].
    + rewrite length_app. cbn [length]. lia.
  - rewrite length_app. cbn [length]. lia.
Qed.

Lemma deque_append_last {A : Type} (n : nat) (q : list A) (a : A) :
  (1 ≤ n)%nat → (length q ≤ n)%nat → last (deque_append n q a) = Some a.
Proof.
  intros H1 H. unfold deque_append. rewrite length_app. cbn [length].
  destruct (Nat.ltb_spec n (length q + 1)) as [Hlt | Hge];
    [| apply last_snoc].
  destruct q as [| b q]; cbn [app tail length] in *; [lia |].
  apply last_snoc.
Qed.

(** What the loop over the snapshot has computed. *)
Lemma update_metrics_fold (m : t) (vi : gmap Z VehicleData.t) :
  let acc := map_fold (λ _ vd acc, visit vd acc)
               ((λ _, 0%Z) <$> queue_lengths m, []) vi in
  (∀ key, acc.1 !! key
          = (λ _ : list Z, queue_count key vi) <$> queue_lengths m !! key)
  ∧ length acc.2
    = size (filter (λ kv, VehicleData.passed kv.2 = false) vi)
  ∧ Forall (λ w, ∃ k vd, vi !! k = Some vd
                         ∧ VehicleData.passed vd = false
                         ∧ w = VehicleData.waiting_time vd) acc.2.
Proof.
  cbv zeta.
  apply (map_fold_weak_ind
    (λ (acc : gmap string Z * list Z) (vi : gmap Z VehicleData.t),
       (∀ key, acc.1 !! key
               = (λ _ : list Z, queue_count key vi) <$> queue_lengths m !! key)
       ∧ length acc.2
         = size (filter (λ kv, VehicleData.passed kv.2 = false) vi)
       ∧ Forall (λ w, ∃ k vd, vi !! k = Some vd
                              ∧ VehicleData.passed vd = false
                              ∧ w = VehicleData.waiting_time vd) acc.2)).
  - split; [| split].
    + intros key. cbn [fst]. rewrite lookup_fmap. unfold queue_count.
      rewrite map_filter_empty, map_size_empty.
      by destruct (queue_lengths m !! key).
    + rewrite map_filter_empty, map_size_empty. reflexivity.
    + constructor.
  - intros i vd vi' r Hn (Hq & Hl & Hf).
    assert (∀ key, queue_count key (<[i:=vd]> vi')
                   = if queued key vd then Z.succ (queue_count key vi')
                     else queue_count key vi') as Hqc.
    { intros key. unfold queue_count.
      rewrite size_filter_insert_fresh by exact Hn. cbn [snd].
      destruct (decide (queued key vd = true)) as [-> | Hne].
      - lia.
      - by destruct (queued key vd). }
    assert (Forall (λ w, ∃ k vd0, <[i:=vd]> vi' !! k = Some vd0
                         ∧ VehicleData.passed vd0 = false
                         ∧ w = VehicleData.waiting_time vd0) r.2) as Hf'.
    { eapply Forall_impl; [exact Hf |]. intros w (k & vd0 & Hk & Hp & ->).
      exists k, vd0. split; [| by split].
      rewrite lookup_insert_ne; [exact Hk | congruence]. }
    rewrite size_filter_insert_fresh by exact Hn. cbn [snd].
    unfold visit. destruct (VehicleData.passed vd) eqn:Hp.
    { split; [| split]; [| | exact Hf'].
      - intros key. rewrite Hq, Hqc. unfold queued. rewrite Hp. reflexivity.
      - rewrite decide_False by discriminate. exact Hl. }
    rewrite decide_True by reflexivity.
    assert (length (r.2 ++ [VehicleData.waiting_time vd])
            = S (size (filter (λ kv, VehicleData.passed kv.2 = false) vi')))
      as Hl' by (rewrite length_app; simpl; lia).
    assert (Forall (λ w, ∃ k vd0, <[i:=vd]> vi' !! k = Some vd0
                         ∧ VehicleData.passed vd0 = false
                         ∧ w = VehicleData.waiting_time vd0)
              (r.2 ++ [VehicleData.waiting_time vd])) as Hf''.
    { apply Forall_app. split; [exact Hf' |]. constructor; [| constructor].
      exists i, vd. rewrite lookup_insert_eq. by repeat split. }
    destruct (Qltb (VehicleData.speed vd) 0.5 && is_in_waiting_zone vd) eqn:Hz;
      cbn [fst snd]; (split; [| split]; [| exact Hl' | exact Hf'']).
    + intros key. rewrite lookup_alter, Hqc. unfold queued.
      rewrite Hp, Hz. cbn [negb andb].
      destruct (decide (lane_key (VehicleData.direction vd)
                          (VehicleData.lane_type vd) = key)) as [E | E].
      * rewrite bool_decide_eq_true_2 by exact E. rewrite E, Hq.
        by destruct (queue_lengths m !! key).
      * rewrite bool_decide_eq_false_2 by exact E. apply Hq.
    + intros key. rewrite Hq, Hqc. unfold queued. rewrite Hp, Hz.
      reflexivity.
Qed.

Lemma update_metrics_queue_lengths (m : t) (vi : gmap Z VehicleData.t)
    (ph st pa tot : Z) (key : string) :
  queue_lengths (update_metrics vi ph st pa tot m) !! key
  = (λ q, deque_append 100 q (queue_count key vi)) <$> queue_lengths m !! key.
Proof.
  unfold update_metrics. cbn [queue_lengths].
  rewrite map_lookup_imap.
  destruct (update_metrics_fold m vi) as (Hq & _). cbv zeta in Hq.
  rewrite (Hq key). by destruct (queue_lengths m !! key).
Qed.

Lemma sum_inject_Z (l : list Z) :
  (foldr Qplus 0 (inject_Z <$> l) == inject_Z (foldr Z.add 0%Z l))%Q.
Proof.
  induction l as [| a l IH]; simpl; [reflexivity |].
  rewrite IH, inject_Z_plus. reflexivity.
Qed.

Lemma sum_bounds (a b : Z) (l : list Z) :
  Forall (λ w, (a ≤ w ≤ b)%Z) l →
  (a * Z.of_nat (length l) ≤ foldr Z.add 0 l ≤ b * Z.of_nat (length l))%Z.
Proof.
  induction 1 as [| w l Hw _ IH]; simpl length; simpl foldr; [lia |].
  rewrite Nat2Z.inj_succ. lia.
Qed.

Lemma mean_bounds (a b : Z) (l : list Z) :
  l ≠ [] → Forall (λ w, (a ≤ w ≤ b)%Z) l →
  (inject_Z a <= mean (inject_Z <$> l))%Q
  ∧ (mean (inject_Z <$> l) <= inject_Z b)%Q.
Proof.
  intros Hne Hf. unfold mean. rewrite length_fmap, sum_inject_Z.
  pose proof (sum_bounds a b l Hf) as [Ha Hb].
  assert (0 < Z.of_nat (length l))%Z as Hpos
    by (destruct l; [congruence | simpl; lia]).
  assert (0 < inject_Z (Z.of_nat (length l)))%Q as HposQ
    by (change 0%Q with (inject_Z 0); rewrite <- Zlt_Qlt; exact Hpos).
  split.
  - apply Qle_shift_div_l; [exact HposQ |].
    rewrite <- inject_Z_mult, <- Zle_Qle. exact Ha.
  - apply Qle_shift_div_r; [exact HposQ |].
    rewrite <- inject_Z_mult, <- Zle_Qle. exact Hb.
Qed.

Lemma lane_keys_reset (key : string) :
  queue_lengths reset !! key = if decide (key ∈ lane_keys) then Some [] else None.
Proof.
  unfold reset. cbn [queue_lengths].
  destruct (decide (key ∈ lane_keys)) as [Hin | Hnin].
  - apply elem_of_list_to_map.
    + apply (bool_decide_unpack _). vm_compute. exact I.
    + apply list_elem_of_fmap. exists key. by split.
  - apply not_elem_of_list_to_map. rewrite <- list_fmap_compose.
    intros Hin. apply Hnin. apply list_elem_of_fmap in Hin as (k & -> & Hk).
    exact Hk.
Qed.

Lemma metrics_run_snoc (calls : list metrics_call) (c : metrics_call) (m : t) :
  metrics_run (calls ++ [c]) m
  = update_metrics (call_vehicles_info c) (call_current_phase c)
      (call_current_step c) (call_passed_this_step c) (call_total_passed c)
      (metrics_run calls m).
Proof. unfold metrics_run. by rewrite foldl_app. Qed.

End Samples.

(** X8: the collector keeps exactly the eight lane windows, and after
    [n] calls to [update_metrics] from a reset each window holds the
    last [min n 100] samples: the window never grows beyond 100. *)
Theorem queue_windows_bounded (calls : list metrics_call) (key : string) :
  let m := metrics_run calls TrafficMetricsCollector.reset in
  (key ∈ TrafficMetricsCollector.lane_keys →
   ∃ q, TrafficMetricsCollector.queue_lengths m !! key = Some q
        ∧ length q = Nat.min (length calls) 100)
  ∧ (key ∉ TrafficMetricsCollector.lane_keys →
     TrafficMetricsCollector.queue_lengths m !! key = None).
Proof.
  induction calls as [| c calls IH] using rev_ind.
  - cbv zeta. unfold metrics_run. cbn [foldl]. rewrite lane_keys_reset.
    split; intros H.
    + rewrite decide_True by exact H. by exists [].
    + by rewrite decide_False.
  - cbv zeta in IH |- *. rewrite metrics_run_snoc.
    rewrite update_metrics_queue_lengths. destruct IH as [IH1 IH2].
    split; intros H.
    + destruct (IH1 H) as (q & -> & Hq). cbn [fmap option_fmap option_map].
      eexists. split; [reflexivity |].
      rewrite deque_append_length by lia. rewrite length_app. simpl. lia.
    + rewrite (IH2 H). reflexivity.
Qed.

Lemma queue_windows_bounded_witness :
  ∃ q, TrafficMetricsCollector.queue_lengths
         (metrics_run (replicate 3 (mk_metrics_call ∅ 0 1 0 0))
            TrafficMetricsCollector.reset) !! "west_left"
       = Some q ∧ length q = Nat.min 3 100.
Proof.
  apply (queue_windows_bounded (replicate 3 (mk_metrics_call ∅ 0 1 0 0))).
  apply (bool_decide_unpack _). vm_compute. exact I.
Defined.

(** X9: the sample [update_metrics] appends to the window of a lane is
    the number of snapshot vehicles of that lane that are not passed,
    slower than 0.5 and in the waiting zone; it is the last sample of
    the window afterwards. *)
Theorem queue_sample_counts (m : TrafficMetricsCollector.t)
    (vehicles_info : gmap Z VehicleData.t)
    (current_phase current_step passed_this_step total_passed : Z)
    (key : string) (q : list Z) :
  TrafficMetricsCollector.queue_lengths m !! key = Some q →
  (length q ≤ 100)%nat →
  let m' := TrafficMetricsCollector.update_metrics vehicles_info
              current_phase current_step passed_this_step total_passed m in
  TrafficMetricsCollector.queue_lengths m' !! key
  = Some (deque_append 100 q (queue_count key vehicles_info))
  ∧ (TrafficMetricsCollector.queue_lengths m' !! key ≫= last)
    = Some (queue_count key vehicles_info).
Proof.
  intros Hq Hlen m'. unfold m'.
  rewrite update_metrics_queue_lengths, Hq. cbn [fmap option_fmap option_map].
  split; [reflexivity |]. cbn [mbind option_bind].
  apply deque_append_last; lia.
Qed.

Lemma queue_sample_counts_witness :
  (TrafficMetricsCollector.queue_lengths
     (TrafficMetricsCollector.update_metrics
        {[ 0%Z := VehicleData.mk 77 20 West Left 3 0 false ]} 2 5 0 0
        TrafficMetricsCollector.reset) !! "west_left" ≫= last)
  = Some (queue_count "west_left"
            {[ 0%Z := VehicleData.mk 77 20 West Left 3 0 false ]}).
Proof.
  apply (queue_sample_counts TrafficMetricsCollector.reset
           {[ 0%Z := VehicleData.mk 77 20 West Left 3 0 false ]} 2 5 0 0
           "west_left" []).
  - vm_compute. reflexivity.
  - simpl. lia.
Defined.

(** X10: [update_metrics] appends one waiting-time sample: 0 when the
    snapshot has no active vehicle, and otherwise a value between the
    smallest and the largest waiting time of the active vehicles. *)
Theorem waiting_sample_between (m : TrafficMetricsCollector.t)
    (vehicles_info : gmap Z VehicleData.t)
    (current_phase current_step passed_this_step total_passed : Z) :
  ∃ w, TrafficMetricsCollector.waiting_times
         (TrafficMetricsCollector.update_metrics vehicles_info current_phase
            current_step passed_this_step total_passed m)
       = TrafficMetricsCollector.waiting_times m ++ [w]
       ∧ (active_count vehicles_info = 0%Z → w = 0%Q)
       ∧ ∀ a b : Z,
           (0 < active_count vehicles_info)%Z →
           (∀ k vd, vehicles_info !! k = Some vd →
                    VehicleData.passed vd = false →
                    (a ≤ VehicleData.waiting_time vd ≤ b)%Z) →
           (inject_Z a <= w)%Q ∧ (w <= inject_Z b)%Q.
Proof.
  unfold TrafficMetricsCollector.update_metrics.
  cbn [TrafficMetricsCollector.waiting_times].
  destruct (update_metrics_fold m vehicles_info) as (_ & Hl & Hf).
  cbv zeta in Hl, Hf.
  destruct (map_fold _ _ vehicles_info).2 as [| w0 wts] eqn:E.
  - exists 0%Q. split; [reflexivity |]. split; [reflexivity |].
    intros a b Hpos. unfold active_count in Hpos. simpl in Hl. lia.
  - eexists. split; [reflexivity |]. split.
    + intros H0. unfold active_count in H0. simpl in Hl. lia.
    + intros a b _ Hab. apply mean_bounds; [discriminate |].
      eapply Forall_impl; [exact Hf |].
      intros w (k & vd & Hk & Hp & ->). by apply (Hab k vd).
Qed.

Lemma waiting_sample_between_witness :
  ∃ w, TrafficMetricsCollector.waiting_times
         (TrafficMetricsCollector.update_metrics
            {[ 0%Z := VehicleData.mk 77 20 West Left 3 0 false ]} 2 5 0 0
            TrafficMetricsCollector.reset) = [] ++ [w]
       ∧ (inject_Z 3 <= w)%Q ∧ (w <= inject_Z 3)%Q.
Proof.
  destruct (waiting_sample_between TrafficMetricsCollector.reset
              {[ 0%Z := VehicleData.mk 77 20 West Left 3 0 false ]} 2 5 0 0)
    as (w & Hw & _ & Hb).
  exists w. split; [exact Hw |].
  apply Hb.
  - vm_compute. reflexivity.
  - intros k vd Hl _.
    apply lookup_singleton_Some in Hl as [_ <-]. simpl. lia.
Defined.

Lemma vehicle_keeps_lane_helper (i : Z) (d : Direction) (l : LaneType)
    (st : Z) (calls : list (Z * bool)) :
  let v := updates calls (Vehicle.init i d l st) in
  Vehicle.lane_type v = l
  ∧ (Vehicle.has_turned v = false → Vehicle.direction v = d).
Proof.
  intros v.
  destruct (lifetime_inv_updates d l calls _ (lifetime_inv_init i d l st))
    as (_ & _ & _ & Hl & Hd & _).
  by split.
Qed.

(** X11: only a vehicle in the approach zone of its heading can be in a
    waiting zone, so a vehicle that has turned left is never counted in
    a queue. *)
Theorem queue_only_approaching (i : Z) (d : Direction) (l : LaneType)
    (st : Z) (calls : list (Z * bool)) :
  let v := updates calls (Vehicle.init i d l st) in
  TrafficMetricsCollector.is_in_waiting_zone (TrafficSimulation.snapshot v)
  = true →
  Vehicle.approaching_intersection v = true
  ∧ Vehicle.has_turned v = false
  ∧ ∀ key, queued key (TrafficSimulation.snapshot v) = true →
           key = TrafficMetricsCollector.lane_key d l.
Proof.
  intros v Hz.
  assert (Vehicle.approaching_intersection v = true) as Hap.
  { revert Hz. unfold TrafficMetricsCollector.is_in_waiting_zone,
      Vehicle.approaching_intersection, TrafficSimulation.snapshot.
    cbn [VehicleData.direction VehicleData.x VehicleData.y].
    destruct (Vehicle.direction v);
      rewrite andb_true_iff, !Qltb_lt; intros [? ?]; lra. }
  destruct (vehicle_inv_updates calls _ (vehicle_inv_init i d l st))
    as (_ & _ & _ & _ & Ht).
  fold v in Ht.
  assert (Vehicle.has_turned v = false) as Hnt.
  { destruct (Vehicle.has_turned v); [| reflexivity].
    destruct (Ht eq_refl) as [_ F]. congruence. }
  split; [exact Hap |]. split; [exact Hnt |].
  intros key Hq. unfold queued in Hq.
  apply andb_true_iff in Hq as [_ Hk]. apply bool_decide_eq_true in Hk.
  destruct (vehicle_keeps_lane_helper i d l st calls) as (Hl & Hd).
  fold v in Hl, Hd. rewrite <- Hk. unfold TrafficSimulation.snapshot.
  cbn [VehicleData.direction VehicleData.lane_type].
  rewrite Hl, (Hd Hnt). reflexivity.
Qed.

Lemma queue_only_approaching_witness :
  Vehicle.approaching_intersection
    (updates (replicate 20 (0%Z, true)) (Vehicle.init 0 North Straight 0))
  = true.
Proof.
  apply (queue_only_approaching 0 North Straight 0 (replicate 20 (0%Z, true))).
  vm_compute. reflexivity.
Defined.

(** ** A simulation in which no lane spawns *)

Section Quiet.
Import TrafficSimulation.

Lemma spawn_vehicles_keeps_draws (P : t → Prop)
    (draws : Direction → LaneType → Q) (s : t) :
  (∀ d l s', P s' → P (spawn_lane (draws d l) d l s')) →
  P s → P (spawn_vehicles draws s).
Proof.
  intros Hk. unfold spawn_vehicles. generalize lanes. intros ls.
  revert s. induction ls as [| dl ls IH]; intros s Hs; simpl; [exact Hs |].
  apply IH, Hk, Hs.
Qed.

(** When every draw is at least the probability of its lane, the spawn
    process only advances the tick counter. *)
Lemma after_spawn_quiet (draws : Direction → LaneType → Q) (s : t) :
  (∀ d l, (spawn_probabilities s d l <= draws d l)%Q) →
  after_spawn draws s
  = mk (vehicles s) (next_vehicle_id s) (current_step s + 1)
       (metrics_collector s) (spawn_probabilities s)
       (total_passed_vehicles s).
Proof.
  intros H. unfold after_spawn.
  set (s0 := mk (vehicles s) (next_vehicle_id s) (current_step s + 1)
               (metrics_collector s) (spawn_probabilities s)
               (total_passed_vehicles s)).
  apply (spawn_vehicles_keeps_draws (λ s', s' = s0)); [| reflexivity].
  intros d l s' ->. unfold spawn_lane.
  assert (Qltb (draws d l) (spawn_probabilities s0 d l) = false) as ->;
    [| reflexivity].
  apply Qltb_ge. apply H.
Qed.

Lemma mean_zero (l : list Q) : Forall (λ w, (w == 0)%Q) l → (mean l == 0)%Q.
Proof.
  intros H. unfold mean.
  assert (foldr Qplus 0 l == 0)%Q as ->.
  { induction H as [| w l Hw _ IH]; simpl; [reflexivity |].
    rewrite Hw, IH. reflexivity. }
  unfold Qdiv. apply Qmult_0_l.
Qed.

Lemma quiet_inv_step (p : Z) (draws : Direction → LaneType → Q) (s : t) :
  (∀ d l, (default_spawn_probabilities d l <= draws d l)%Q) →
  quiet_inv s → quiet_inv (step p draws s).
Proof.
  intros Hd (Hv & Hn & Ht & Hp & Hw & Hr).
  assert (after_spawn draws s
          = mk ∅ 0 (current_step s + 1) (metrics_collector s)
               default_spawn_probabilities 0) as Ha.
  { rewrite after_spawn_quiet by (rewrite Hp; exact Hd).
    by rewrite Hv, Hn, Ht, Hp. }
  rewrite (step_after_spawn p draws s _ (eq_sym Ha)).
  unfold collect_metrics, updated_vehicles, vehicles_to_remove.
  cbn [vehicles next_vehicle_id current_step metrics_collector
       spawn_probabilities total_passed_vehicles].
  rewrite !fmap_empty, map_filter_empty, map_to_list_empty.
  cbn [fmap list_fmap foldr length]. rewrite fmap_empty.
  unfold quiet_inv.
  cbn [vehicles next_vehicle_id total_passed_vehicles spawn_probabilities
       metrics_collector].
  split; [reflexivity |]. split; [reflexivity |]. split; [reflexivity |].
  split; [reflexivity |].
  unfold TrafficMetricsCollector.update_metrics.
  rewrite map_fold_empty.
  cbn [TrafficMetricsCollector.waiting_times
       TrafficMetricsCollector.throughputs snd].
  split.
  - apply Forall_app. split; [exact Hw |]. by repeat constructor.
  - destruct (0 <? current_step s + 1)%Z; [| exact Hr].
    apply Forall_app. split; [exact Hr |]. constructor; [| constructor].
    unfold Qdiv. apply Qmult_0_l.
Qed.

End Quiet.

(** X12: as long as no draw falls below the spawn probability of its
    lane, a fresh simulation stays empty: no identifier is handed out,
    nothing passes, and [get_metrics] reports throughput 0 and average
    waiting time 0 after every tick. *)
Theorem quiet_run_stays_empty
    (l : list (Z * (Direction → LaneType → Q))) :
  Forall (λ c, ∀ d lt,
            (TrafficSimulation.default_spawn_probabilities d lt
             <= c.2 d lt)%Q) l →
  let s := TrafficSimulation.run (steps l) TrafficSimulation.init in
  TrafficSimulation.vehicles s = ∅
  ∧ TrafficSimulation.next_vehicle_id s = 0%Z
  ∧ TrafficSimulation.total_passed_vehicles s = 0%Z
  ∧ (TrafficMetricsCollector.throughput (TrafficSimulation.get_metrics s)
     == 0)%Q
  ∧ (TrafficMetricsCollector.average_waiting_time
       (TrafficSimulation.get_metrics s) == 0)%Q.
Proof.
  intros Hl s.
  assert (quiet_inv s) as (Hv & Hn & Ht & _ & Hw & Hr).
  { unfold s. clear s.
    assert (quiet_inv TrafficSimulation.init) as H0.
    { unfold quiet_inv, TrafficSimulation.init. cbn.
      repeat split; constructor. }
    revert H0. generalize TrafficSimulation.init.
    induction Hl as [| c l Hc _ IH]; intros s0 H0; [exact H0 |].
    change (TrafficSimulation.run (steps (c :: l)) s0)
      with (TrafficSimulation.run (steps l)
              (TrafficSimulation.step c.1 c.2 s0)).
    apply IH. by apply quiet_inv_step. }
  split; [exact Hv |]. split; [exact Hn |]. split; [exact Ht |].
  unfold TrafficSimulation.get_metrics.
  rewrite get_metrics_throughput.
  unfold TrafficMetricsCollector.get_metrics.
  cbn [TrafficMetricsCollector.average_waiting_time].
  split.
  - destruct (last _) as [r |] eqn:E; [| reflexivity].
    apply last_Some_elem_of in E.
    by apply (proj1 (Forall_forall _ _) Hr).
  - destruct (TrafficMetricsCollector.waiting_times _) as [| w ws] eqn:E;
      [reflexivity |].
    by apply mean_zero.
Qed.

Lemma quiet_run_stays_empty_witness :
  (TrafficMetricsCollector.throughput
     (TrafficSimulation.get_metrics
        (TrafficSimulation.run (steps (replicate 100 (1%Z, never)))
           TrafficSimulation.init)) == 0)%Q.
Proof.
  apply (quiet_run_stays_empty (replicate 100 (1%Z, never))).
  apply Forall_replicate. intros d lt. destruct lt; vm_compute; discriminate.
Defined.

(** ** The fixed-time controllers *)

Section Light.
Import FixedTimeTrafficLight.

Lemma py_index_nonneg {A : Type} (l : list A) (i : Z) :
  (0 ≤ i)%Z → py_index l i = l !! Z.to_nat i.
Proof.
  intros H. unfold py_index.
  destruct (Z.leb_spec 0 i); [reflexivity | lia].
Qed.

Lemma py_index_in_range {A : Type} (l : list A) (i : Z) :
  (0 ≤ i < Z.of_nat (length l))%Z → is_Some (py_index l i).
Proof.
  intros H. rewrite py_index_nonneg by lia.
  apply lookup_lt_is_Some_2. lia.
Qed.

Lemma py_index_Some_range {A : Type} (l : list A) (i : Z) (a : A) :
  (0 ≤ i)%Z → py_index l i = Some a → (i < Z.of_nat (length l))%Z.
Proof.
  intros H. rewrite py_index_nonneg by lia. intros Hl.
  apply lookup_lt_Some in Hl. lia.
Qed.

(** A step within a phase. *)
Lemma step_tick (ds : list Z) (n i k d : Z) :
  py_index ds i = Some d → (k + 1 < d)%Z →
  step (mk ds n i k) = (mk ds n i (k + 1), Some i).
Proof.
  intros Hd Hk. unfold step. cbn [phase_durations current_phase phase_timer].
  rewrite Hd. destruct (Z.leb_spec d (k + 1)); [lia | reflexivity].
Qed.

(** A step that leaves a phase. *)
Lemma step_switch (ds : list Z) (n i k d : Z) :
  py_index ds i = Some d → (d ≤ k + 1)%Z → n ≠ 0%Z →
  step (mk ds n i k) = (mk ds n ((i + 1) `mod` n) 0, switch_result n i).
Proof.
  intros Hd Hk Hn. unfold step, switch_result.
  cbn [phase_durations current_phase phase_timer num_phases].
  rewrite Hd. destruct (Z.leb_spec d (k + 1)); [| lia].
  destruct (Z.eqb_spec n 0); [congruence |].
  by destruct (py_index phase_descriptions ((i + 1) `mod` n)).
Qed.

Lemma light_inv_step (c : t) :
  light_inv c →
  light_inv (step c).1
  ∧ phase_durations (step c).1 = phase_durations c
  ∧ ∃ p, (step c).2 = Some p ∧ p = current_phase (step c).1.
Proof.
  destruct c as [ds n i k]. unfold light_inv.
  cbn [phase_durations current_phase phase_timer num_phases].
  intros (Hn & Hi & H4 & Hk & Ht).
  destruct (py_index_in_range ds i ltac:(lia)) as [d Hd].
  specialize (Ht d Hd).
  destruct (Z.le_gt_cases d (k + 1)) as [Hle | Hgt].
  - rewrite (step_switch ds n i k d Hd Hle) by lia.
    pose proof (Z.mod_pos_bound (i + 1) n ltac:(lia)) as Hm.
    unfold switch_result.
    destruct (py_index_in_range phase_descriptions ((i + 1) `mod` n))
      as [desc ->]; [simpl; lia |].
    cbn [fst snd phase_durations current_phase phase_timer num_phases].
    split; [| split; [reflexivity | by eexists]].
    split; [lia |]. split; [lia |]. split; [lia |]. split; [lia |].
    intros d' _. lia.
  - rewrite (step_tick ds n i k d Hd) by lia.
    cbn [fst snd phase_durations current_phase phase_timer num_phases].
    split; [| split; [reflexivity | by eexists]].
    split; [lia |]. split; [lia |]. split; [lia |]. split; [lia |].
    intros d' Hd'. rewrite Hd in Hd'. injection Hd' as <-. lia.
Qed.

Lemma light_inv_init (ds : list Z) :
  ds ≠ [] → (length ds ≤ 4)%nat → light_inv (init ds).
Proof.
  intros Hne H4. unfold light_inv, init.
  cbn [phase_durations current_phase phase_timer num_phases].
  destruct ds as [| d ds]; [congruence |]. cbn [length] in *.
  split; [reflexivity |]. split; [lia |]. split; [lia |]. split; [lia |].
  intros d' _. lia.
Qed.

Lemma light_inv_run (n : nat) (c : t) :
  light_inv c →
  light_inv (run n c).1
  ∧ phase_durations (run n c).1 = phase_durations c
  ∧ Forall (λ o, ∃ p, o = Some p ∧ (0 ≤ p < num_phases c)%Z) (run n c).2.
Proof.
  revert c. induction n as [| n IH]; intros c I.
  - cbn [run fst snd]. repeat split; [apply I .. | constructor].
  - cbn [run fst snd].
    destruct (light_inv_step c I) as (I' & Hd & p & Hp & Hpc).
    destruct (IH _ I') as (I'' & Hd' & Hf).
    split; [exact I'' |]. split; [congruence |].
    assert (num_phases (step c).1 = num_phases c) as Hnum.
    { destruct I as (-> & _), I' as (-> & _). by rewrite Hd. }
    constructor.
    + exists p. split; [exact Hp |]. subst p.
      destruct I' as (_ & Hi & _). lia.
    + eapply Forall_impl; [exact Hf |]. intros o (q & -> & Hq).
      exists q. split; [reflexivity | lia].
Qed.

Lemma run_add (a b : nat) (c : t) :
  run (a + b) c = ((run b (run a c).1).1, (run a c).2 ++ (run b (run a c).1).2).
Proof.
  revert c. induction a as [| a IH]; intros c; cbn [run Nat.add fst snd app].
  - by destruct (run b c).
  - rewrite IH. reflexivity.
Qed.

(** The steps within a phase. *)
Lemma run_hold (ds : list Z) (n i d : Z) (j : nat) (k : Z) :
  py_index ds i = Some d → (0 ≤ k)%Z → (k + Z.of_nat j < Z.max 1 d)%Z →
  run j (mk ds n i k) = (mk ds n i (k + Z.of_nat j), replicate j (Some i)).
Proof.
  intros Hd. revert k. induction j as [| j IH]; intros k Hk Hj.
  - cbn [run replicate]. by rewrite Z.add_0_r.
  - cbn [run replicate]. rewrite (step_tick ds n i k d Hd) by lia.
    cbn [fst snd]. rewrite IH by lia. cbn [fst snd].
    do 2 f_equal. lia.
Qed.

(** A whole phase. *)
Lemma run_phase (ds : list Z) (n i d : Z) :
  py_index ds i = Some d → n ≠ 0%Z →
  run (phase_ticks d) (mk ds n i 0)
  = (mk ds n ((i + 1) `mod` n) 0,
     replicate (phase_ticks d - 1) (Some i) ++ [switch_result n i]).
Proof.
  intros Hd Hn. unfold phase_ticks.
  replace (Z.to_nat (Z.max 1 d)) with (Z.to_nat (Z.max 1 d) - 1 + 1)%nat
    at 1 by lia.
  rewrite run_add, (run_hold ds n i d) by (try exact Hd; lia).
  cbn [run fst snd].
  rewrite (step_switch ds n i _ d Hd) by (try exact Hn; lia).
  reflexivity.
Qed.

(** The phases from phase [i] on, to the end of the cycle. *)
Lemma run_cycle (ds pre post : list Z) (n i : Z) :
  ds = pre ++ post → post ≠ [] → i = Z.of_nat (length pre) →
  n = Z.of_nat (length ds) →
  run (length (cycle_results n i post)) (mk ds n i 0)
  = (mk ds n 0 0, cycle_results n i post).
Proof.
  revert pre i. induction post as [| d post IH]; intros pre i Hds Hne Hi Hn;
    [congruence |].
  assert (py_index ds i = Some d) as Hd.
  { rewrite py_index_nonneg by lia. subst ds i.
    rewrite Nat2Z.id. by rewrite list_lookup_middle. }
  assert (n = (i + 1 + Z.of_nat (length post))%Z) as Hlen.
  { subst n ds i. rewrite length_app. simpl. lia. }
  cbn [cycle_results]. rewrite length_app. cbn [length].
  rewrite length_replicate.
  replace (phase_ticks d - 1 + S (length (cycle_results n (i + 1) post)))%nat
    with (phase_ticks d + length (cycle_results n (i + 1) post))%nat
    by (unfold phase_ticks; lia).
  rewrite run_add, (run_phase ds n i d Hd) by lia.
  cbn [fst snd]. destruct post as [| d' post'].
  - cbn [cycle_results length run fst snd].
    simpl in Hlen. replace (i + 1)%Z with n by lia.
    rewrite Z.mod_same by lia. by rewrite app_nil_r.
  - rewrite Z.mod_small by (simpl in Hlen; lia).
    rewrite (IH (pre ++ [d]) (i + 1)%Z).
    + cbn [fst snd]. by rewrite <- app_assoc.
    + by rewrite <- app_assoc.
    + discriminate.
    + rewrite length_app. simpl. lia.
    + exact Hn.
Qed.

Lemma cycle_results_length (n i : Z) (ds : list Z) :
  length (cycle_results n i ds) = sum_list (phase_ticks <$> ds).
Proof.
  revert i. induction ds as [| d ds IH]; intros i; [reflexivity |].
  cbn [cycle_results fmap list_fmap sum_list sum_list_with].
  rewrite length_app, length_replicate. cbn [length]. rewrite IH.
  generalize (sum_list (phase_ticks <$> ds)). intros m.
  unfold id, phase_ticks. lia.
Qed.

End Light.

(** X13: a [FixedTimeTrafficLight] built with one to four durations never
    raises: every [step] returns a phase between 0 and the number of
    phases, and [get_status] succeeds in every state, with a remaining
    time of at least 1 and at most the duration of the phase when all
    durations are at least 1. *)
Theorem light_never_fails (ds : list Z) (n : nat) :
  ds ≠ [] → (length ds ≤ 4)%nat →
  let r := FixedTimeTrafficLight.run n (FixedTimeTrafficLight.init ds) in
  Forall (λ o, ∃ p, o = Some p ∧ (0 ≤ p < Z.of_nat (length ds))%Z) r.2
  ∧ ∃ st d, FixedTimeTrafficLight.get_status r.1 = Some st
            ∧ ds !! Z.to_nat (FixedTimeTrafficLight.current_phase r.1)
              = Some d
            ∧ FixedTimeTrafficLight.remaining_time st
              = (d - FixedTimeTrafficLight.phase_timer r.1)%Z
            ∧ (Forall (λ d, (1 ≤ d)%Z) ds →
               (1 ≤ FixedTimeTrafficLight.remaining_time st ≤ d)%Z).
Proof.
  intros Hne H4 r.
  destruct (light_inv_run n _ (light_inv_init ds Hne H4)) as (I & Hd & Hf).
  fold r in I, Hd, Hf. split; [exact Hf |].
  destruct I as (Hn & Hi & Hn4 & Hk & Ht).
  cbn [FixedTimeTrafficLight.init FixedTimeTrafficLight.phase_durations] in Hd.
  rewrite Hd in Hn, Ht.
  destruct (py_index_in_range ds (FixedTimeTrafficLight.current_phase r.1)
              ltac:(lia)) as [d Hdd].
  destruct (py_index_in_range FixedTimeTrafficLight.phase_descriptions
              (FixedTimeTrafficLight.current_phase r.1)) as [desc Hdesc];
    [simpl; lia |].
  unfold FixedTimeTrafficLight.get_status. rewrite Hdesc, Hd, Hdd.
  eexists _, d. split; [reflexivity |].
  rewrite py_index_nonneg in Hdd by lia.
  split; [exact Hdd |]. split; [reflexivity |].
  intros Hall. cbn [FixedTimeTrafficLight.remaining_time].
  assert (1 ≤ d)%Z
    by (apply (proj1 (Forall_forall _ _) Hall), list_elem_of_lookup; eauto).
  specialize (Ht d). rewrite py_index_nonneg in Ht by lia.
  specialize (Ht Hdd). lia.
Qed.

Lemma light_never_fails_witness :
  Forall (λ o, ∃ p, o = Some p ∧ (0 ≤ p < 4)%Z)
    (FixedTimeTrafficLight.run 500
       (FixedTimeTrafficLight.init
          FixedTimeTrafficLight.default_phase_durations)).2.
Proof.
  apply (light_never_fails FixedTimeTrafficLight.default_phase_durations 500).
  - discriminate.
  - simpl. lia.
Defined.

(** X14: a phase of duration [d] lasts [max 1 d] ticks, and after the
    ticks of all its phases a [FixedTimeTrafficLight] is back in its
    initial state; the steps of this cycle return each phase for all its
    ticks but the last, and then the phase that follows. *)
Theorem light_cycle (ds : list Z) :
  ds ≠ [] →
  let n := Z.of_nat (length ds) in
  let period := sum_list (phase_ticks <$> ds) in
  FixedTimeTrafficLight.run period (FixedTimeTrafficLight.init ds)
  = (FixedTimeTrafficLight.init ds, cycle_results n 0 ds).
Proof.
  intros Hne n period. unfold period.
  rewrite <- (cycle_results_length n 0 ds).
  apply (run_cycle ds [] ds); [reflexivity | exact Hne | reflexivity ..].
Qed.

Lemma light_cycle_witness :
  FixedTimeTrafficLight.run 200
    (FixedTimeTrafficLight.init FixedTimeTrafficLight.default_phase_durations)
  = (FixedTimeTrafficLight.init FixedTimeTrafficLight.default_phase_durations,
     cycle_results 4 0 FixedTimeTrafficLight.default_phase_durations).
Proof.
  apply (light_cycle FixedTimeTrafficLight.default_phase_durations).
  discriminate.
Defined.

(** X15: a [FixedTimeTrafficLight] has descriptions for four phases only:
    built with more than four durations, it raises within its first
    cycle, when it switches to the fifth phase; built with no duration,
    its first step raises. *)
Theorem light_fails_beyond_four_phases (ds : list Z) :
  (4 < length ds)%nat →
  let period := sum_list (phase_ticks <$> ds) in
  None ∈ (FixedTimeTrafficLight.run period (FixedTimeTrafficLight.init ds)).2
  ∧ (FixedTimeTrafficLight.step (FixedTimeTrafficLight.init [])).2 = None.
Proof.
  intros H4 period. split; [| reflexivity].
  unfold period. rewrite <- (cycle_results_length (Z.of_nat (length ds)) 0 ds).
  assert (ds ≠ []) as Hne by (destruct ds; [simpl in H4; lia | discriminate]).
  unfold FixedTimeTrafficLight.init.
  rewrite (run_cycle ds [] ds _ 0 eq_refl Hne eq_refl eq_refl).
  cbn [snd].
  destruct ds as [| d0 [| d1 [| d2 [| d3 [| d4 ds]]]]]; simpl in H4; try lia.
  set (n := Z.of_nat (length (d0 :: d1 :: d2 :: d3 :: d4 :: ds))).
  assert (switch_result n 3 = None) as Hs.
  { unfold switch_result. rewrite Z.mod_small by (unfold n; simpl; lia).
    reflexivity. }
  cbn [cycle_results]. change (0 + 1 + 1 + 1)%Z with 3%Z. rewrite Hs.
  do 3 (apply elem_of_app; right; apply elem_of_cons; right).
  apply elem_of_app. right. apply list_elem_of_here.
Qed.

Lemma light_fails_beyond_four_phases_witness :
  None ∈ (FixedTimeTrafficLight.run 5
            (FixedTimeTrafficLight.init [1; 1; 1; 1; 1]%Z)).2.
Proof.
  apply (light_fails_beyond_four_phases [1; 1; 1; 1; 1]%Z).
  simpl. lia.
Defined.

(** ** The controller with a step counter *)

Section Timing.

Lemma py_index_same_length {A B : Type} (l1 : list A) (l2 : list B) (i : Z) :
  length l1 = length l2 →
  (py_index l1 i = None ↔ py_index l2 i = None).
Proof.
  intros H. unfold py_index. rewrite H.
  destruct (0 <=? i)%Z; [| destruct (_ <=? i)%Z; [| tauto]];
    rewrite !lookup_ge_None, H; tauto.
Qed.

Lemma timing_step_forget (c : FixedTimingTrafficLight.t) :
  FixedTimeTrafficLight.step (FixedTimingTrafficLight.forget c)
  = (FixedTimingTrafficLight.forget (FixedTimingTrafficLight.step c).1,
     (FixedTimingTrafficLight.step c).2)
  ∧ FixedTimingTrafficLight.total_steps (FixedTimingTrafficLight.step c).1
    = (FixedTimingTrafficLight.total_steps c + 1)%Z.
Proof.
  destruct c as [ds n i k ts].
  unfold FixedTimeTrafficLight.step, FixedTimingTrafficLight.step,
    FixedTimingTrafficLight.forget.
  cbn [FixedTimeTrafficLight.phase_durations FixedTimeTrafficLight.num_phases
       FixedTimeTrafficLight.current_phase FixedTimeTrafficLight.phase_timer
       FixedTimingTrafficLight.phase_durations
       FixedTimingTrafficLight.num_phases
       FixedTimingTrafficLight.current_phase
       FixedTimingTrafficLight.phase_timer
       FixedTimingTrafficLight.total_steps].
  destruct (py_index ds i) as [d |]; [| by split].
  destruct (d <=? k + 1)%Z; [| by split].
  destruct (n =? 0)%Z; [by split |].
  pose proof (py_index_same_length FixedTimeTrafficLight.phase_descriptions
                FixedTimingTrafficLight.phase_descriptions
                ((i + 1) `mod` n) eq_refl) as Hd.
  destruct (py_index FixedTimeTrafficLight.phase_descriptions _) as [a |];
    destruct (py_index FixedTimingTrafficLight.phase_descriptions _) as [b |];
    try (by split).
  - destruct Hd as [_ Hd]. by specialize (Hd eq_refl).
  - destruct Hd as [Hd _]. by specialize (Hd eq_refl).
Qed.

Lemma timing_run_forget (n : nat) (c : FixedTimingTrafficLight.t) :
  FixedTimeTrafficLight.run n (FixedTimingTrafficLight.forget c)
  = (FixedTimingTrafficLight.forget (FixedTimingTrafficLight.run n c).1,
     (FixedTimingTrafficLight.run n c).2)
  ∧ FixedTimingTrafficLight.total_steps (FixedTimingTrafficLight.run n c).1
    = (FixedTimingTrafficLight.total_steps c + Z.of_nat n)%Z.
Proof.
  revert c. induction n as [| n IH]; intros c.
  - cbn [FixedTimeTrafficLight.run FixedTimingTrafficLight.run fst snd].
    split; [reflexivity | lia].
  - cbn [FixedTimeTrafficLight.run FixedTimingTrafficLight.run fst snd].
    destruct (timing_step_forget c) as [-> Ht]. cbn [fst snd].
    destruct (IH (FixedTimingTrafficLight.step c).1) as [-> Ht'].
    cbn [fst snd]. split; [reflexivity | lia].
Qed.

End Timing.

(** X16: a [FixedTimingTrafficLight] is a [FixedTimeTrafficLight] with a
    step counter: with the same durations, phase and timer the two
    return the same results step after step and stay in the same
    phase and timer, and [total_steps] grows by one at every step,
    whether it raises or not. *)
Theorem timing_light_refines (n : nat) (c : FixedTimingTrafficLight.t) :
  FixedTimeTrafficLight.run n (FixedTimingTrafficLight.forget c)
  = (FixedTimingTrafficLight.forget (FixedTimingTrafficLight.run n c).1,
     (FixedTimingTrafficLight.run n c).2)
  ∧ FixedTimingTrafficLight.total_steps (FixedTimingTrafficLight.run n c).1
    = (FixedTimingTrafficLight.total_steps c + Z.of_nat n)%Z
  ∧ FixedTimingTrafficLight.total_steps
      (FixedTimingTrafficLight.reset (FixedTimingTrafficLight.run n c).1)
    = 0%Z.
Proof.
  destruct (timing_run_forget n c) as [H1 H2].
  split; [exact H1 |]. split; [exact H2 | reflexivity].
Qed.

(** X17: [get_status] of a [FixedTimingTrafficLight] built with one to
    four durations, all at least 1, succeeds after any number of steps:
    [total_steps] is the number of steps, the remaining time is between
    1 and the duration of the phase, and the progress ratio is in
    [0, 1).  In any state whose current phase has duration 0 it raises
    (division by zero). *)
Theorem timing_status (ds : list Z) (n : nat) :
  ds ≠ [] → (length ds ≤ 4)%nat → Forall (λ d, (1 ≤ d)%Z) ds →
  let c := (FixedTimingTrafficLight.run n
              (FixedTimingTrafficLight.init ds)).1 in
  (∃ st d,
     FixedTimingTrafficLight.get_status c = Some st
     ∧ ds !! Z.to_nat (FixedTimingTrafficLight.current_phase c) = Some d
     ∧ FixedTimingTrafficLight.status_total_steps st = Z.of_nat n
     ∧ (1 ≤ FixedTimingTrafficLight.remaining_time st ≤ d)%Z
     ∧ (0 <= FixedTimingTrafficLight.progress st)%Q
     ∧ (FixedTimingTrafficLight.progress st < 1)%Q)
  ∧ ∀ c' : FixedTimingTrafficLight.t,
      py_index (FixedTimingTrafficLight.phase_durations c')
        (FixedTimingTrafficLight.current_phase c') = Some 0%Z →
      FixedTimingTrafficLight.get_status c' = None.
Proof.
  intros Hne H4 Hall c. split.
  2: { intros c' H0. unfold FixedTimingTrafficLight.get_status.
       rewrite H0. reflexivity. }
  destruct (timing_run_forget n (FixedTimingTrafficLight.init ds))
    as [Hrun Hts].
  fold c in Hrun, Hts.
  change (FixedTimingTrafficLight.forget (FixedTimingTrafficLight.init ds))
    with (FixedTimeTrafficLight.init ds) in Hrun.
  destruct (light_inv_run n _ (light_inv_init ds Hne H4)) as (I & Hd & _).
  rewrite Hrun in I, Hd. cbn [fst] in I, Hd.
  destruct I as (Hn & Hi & Hn4 & Hk & Ht).
  destruct c as [ds0 n0 i k ts].
  cbn [FixedTimingTrafficLight.forget FixedTimeTrafficLight.phase_durations
       FixedTimeTrafficLight.num_phases FixedTimeTrafficLight.current_phase
       FixedTimeTrafficLight.phase_timer FixedTimeTrafficLight.init
       FixedTimingTrafficLight.phase_durations
       FixedTimingTrafficLight.num_phases
       FixedTimingTrafficLight.current_phase
       FixedTimingTrafficLight.phase_timer
       FixedTimingTrafficLight.total_steps FixedTimingTrafficLight.init]
    in Hn, Hi, Hn4, Hk, Ht, Hd, Hts.
  subst ds0.
  destruct (py_index_in_range ds i ltac:(lia)) as [d Hdd].
  destruct (py_index_in_range FixedTimingTrafficLight.phase_descriptions i)
    as [desc Hdesc]; [simpl; lia |].
  specialize (Ht d Hdd).
  assert (1 ≤ d)%Z as Hd1.
  { rewrite py_index_nonneg in Hdd by lia.
    apply (proj1 (Forall_forall _ _) Hall), list_elem_of_lookup; eauto. }
  unfold FixedTimingTrafficLight.get_status.
  cbn [FixedTimingTrafficLight.phase_durations
       FixedTimingTrafficLight.current_phase
       FixedTimingTrafficLight.phase_timer
       FixedTimingTrafficLight.total_steps].
  rewrite Hdd, Hdesc. destruct (Z.eqb_spec d 0) as [-> | _]; [lia |].
  eexists _, d. split; [reflexivity |].
  cbn [FixedTimingTrafficLight.status_total_steps
       FixedTimingTrafficLight.remaining_time
       FixedTimingTrafficLight.progress].
  rewrite py_index_nonneg in Hdd by lia.
  split; [exact Hdd |]. split; [lia |]. split; [lia |].
  assert (0 < inject_Z d)%Q as HdQ
    by (change 0%Q with (inject_Z 0); rewrite <- Zlt_Qlt; lia).
  split.
  - apply Qle_shift_div_l; [exact HdQ |]. rewrite Qmult_0_l.
    change 0%Q with (inject_Z 0). rewrite <- Zle_Qle. exact Hk.
  - apply Qlt_shift_div_r; [exact HdQ |]. rewrite Qmult_1_l.
    rewrite <- Zlt_Qlt. lia.
Qed.

Lemma timing_status_witness :
  (∃ st d,
    FixedTimingTrafficLight.get_status
      (FixedTimingTrafficLight.run 75
         (FixedTimingTrafficLight.init
            FixedTimingTrafficLight.default_phase_durations)).1 = Some st
    ∧ FixedTimingTrafficLight.default_phase_durations
        !! Z.to_nat
             (FixedTimingTrafficLight.current_phase
                (FixedTimingTrafficLight.run 75
                   (FixedTimingTrafficLight.init
                      FixedTimingTrafficLight.default_phase_durations)).1)
      = Some d
    ∧ FixedTimingTrafficLight.status_total_steps st = Z.of_nat 75
    ∧ (1 ≤ FixedTimingTrafficLight.remaining_time st ≤ d)%Z
    ∧ (0 <= FixedTimingTrafficLight.progress st)%Q
    ∧ (FixedTimingTrafficLight.progress st < 1)%Q)
  ∧ FixedTimingTrafficLight.get_status
      (FixedTimingTrafficLight.run 5
         (FixedTimingTrafficLight.init [5; 0; 3]%Z)).1 = None.
Proof.
  destruct (timing_status FixedTimingTrafficLight.default_phase_durations 75)
    as [H1 H2].
  - discriminate.
  - simpl. lia.
  - repeat constructor; lia.
  - split; [exact H1 |]. apply H2. vm_compute. reflexivity.
Defined.

(** ** The controller with a float timer *)

Section Cycle.
Import FixedCycleTrafficLight.

Lemma Qle_bool_inject (q : Q) (d z : Z) :
  (q == inject_Z z)%Q →
  Qle_bool (inject_Z d) (q + 1) = (d <=? z + 1)%Z.
Proof.
  intros H.
  assert (q + 1 == inject_Z (z + 1))%Q as E
    by (rewrite inject_Z_plus, H; reflexivity).
  destruct (Z.leb_spec d (z + 1)) as [Hle | Hgt].
  - apply Qle_bool_iff. rewrite E, <- Zle_Qle. exact Hle.
  - apply not_true_is_false. intros F. apply Qle_bool_iff in F.
    rewrite E, <- Zle_Qle in F. lia.
Qed.

Lemma cycle_matches_step (cq : t) (cz : FixedTimeTrafficLight.t) :
  cycle_matches cq cz →
  cycle_matches (step 1 cq).1 (FixedTimeTrafficLight.step cz).1
  ∧ (step 1 cq).2 = (FixedTimeTrafficLight.step cz).2.
Proof.
  destruct cq as [phs nq iq tq], cz as [ds nz iz tz]. unfold cycle_matches.
  cbn [phases num_phases current_phase phase_timer
       FixedTimeTrafficLight.phase_durations FixedTimeTrafficLight.num_phases
       FixedTimeTrafficLight.current_phase FixedTimeTrafficLight.phase_timer].
  intros (-> & -> & -> & -> & -> & Hi & Ht).
  assert (∃ ph, py_index (phases init) iz = Some ph
                ∧ py_index FixedTimeTrafficLight.default_phase_durations iz
                  = Some (duration ph)) as (ph & Hph & Hd).
  { assert (iz = 0 ∨ iz = 1 ∨ iz = 2 ∨ iz = 3)%Z
      as [-> | [-> | [-> | ->]]] by lia; eexists; split; reflexivity. }
  unfold step, FixedTimeTrafficLight.step.
  cbn [phases num_phases current_phase phase_timer
       FixedTimeTrafficLight.phase_durations FixedTimeTrafficLight.num_phases
       FixedTimeTrafficLight.current_phase FixedTimeTrafficLight.phase_timer].
  rewrite Hph, Hd, (Qle_bool_inject tq _ tz Ht).
  destruct (duration ph <=? tz + 1)%Z.
  - change (4 =? 0)%Z with false. cbv iota.
    pose proof (Z.mod_pos_bound (iz + 1) 4 ltac:(lia)) as Hm.
    destruct (py_index_in_range (phases init) ((iz + 1) `mod` 4))
      as [ph' ->]; [simpl; lia |].
    destruct (py_index_in_range FixedTimeTrafficLight.phase_descriptions
                ((iz + 1) `mod` 4)) as [desc ->]; [simpl; lia |].
    cbn [fst snd phases num_phases current_phase phase_timer
         FixedTimeTrafficLight.phase_durations
         FixedTimeTrafficLight.num_phases
         FixedTimeTrafficLight.current_phase
         FixedTimeTrafficLight.phase_timer].
    split; [| reflexivity].
    split; [reflexivity |]. split; [reflexivity |]. split; [reflexivity |].
    split; [reflexivity |]. split; [reflexivity |]. split; [lia |].
    reflexivity.
  - cbn [fst snd phases num_phases current_phase phase_timer
         FixedTimeTrafficLight.phase_durations
         FixedTimeTrafficLight.num_phases
         FixedTimeTrafficLight.current_phase
         FixedTimeTrafficLight.phase_timer].
    split; [| reflexivity].
    split; [reflexivity |]. split; [reflexivity |]. split; [reflexivity |].
    split; [reflexivity |]. split; [reflexivity |]. split; [lia |].
    rewrite Ht, inject_Z_plus. reflexivity.
Qed.

Lemma cycle_matches_run (n : nat) (cq : t) (cz : FixedTimeTrafficLight.t) :
  cycle_matches cq cz →
  cycle_matches (run (replicate n 1%Q) cq).1 (FixedTimeTrafficLight.run n cz).1
  ∧ (run (replicate n 1%Q) cq).2 = (FixedTimeTrafficLight.run n cz).2.
Proof.
  revert cq cz. induction n as [| n IH]; intros cq cz M.
  - cbn [replicate run FixedTimeTrafficLight.run fst snd]. by split.
  - cbn [replicate run FixedTimeTrafficLight.run fst snd].
    destruct (cycle_matches_step cq cz M) as [M' ->].
    destruct (IH _ _ M') as [M'' ->]. by split.
Qed.

Lemma cycle_inv_step (dt : Q) (c : t) :
  cycle_inv c →
  cycle_inv (step dt c).1
  ∧ ∃ p, (step dt c).2 = Some p ∧ (0 ≤ p < 4)%Z.
Proof.
  destruct c as [phs n i k]. unfold cycle_inv.
  cbn [phases num_phases current_phase phase_timer].
  intros (-> & -> & Hi). unfold step.
  cbn [phases num_phases current_phase phase_timer].
  destruct (py_index_in_range (phases init) i) as [ph ->]; [simpl; lia |].
  destruct (Qle_bool _ _).
  - change (4 =? 0)%Z with false. cbv iota.
    pose proof (Z.mod_pos_bound (i + 1) 4 ltac:(lia)) as Hm.
    cbn [phases num_phases current_phase phase_timer].
    destruct (py_index_in_range (phases init) ((i + 1) `mod` 4))
      as [ph' ->]; [simpl; lia |].
    cbn [fst snd phases num_phases current_phase].
    split; [| eexists; split; [reflexivity | lia]].
    split; [reflexivity |]. split; [reflexivity | lia].
  - cbn [fst snd phases num_phases current_phase].
    split; [| eexists; split; [reflexivity | lia]].
    split; [reflexivity |]. split; [reflexivity | lia].
Qed.

Lemma cycle_inv_run (dts : list Q) (c : t) :
  cycle_inv c →
  cycle_inv (run dts c).1
  ∧ Forall (λ o, ∃ p, o = Some p ∧ (0 ≤ p < 4)%Z) (run dts c).2.
Proof.
  revert c. induction dts as [| dt dts IH]; intros c I.
  - cbn [run fst snd]. split; [exact I | constructor].
  - cbn [run fst snd]. destruct (cycle_inv_step dt c I) as [I' Hp].
    destruct (IH _ I') as [I'' Hf]. split; [exact I'' |].
    by constructor.
Qed.

End Cycle.

(** X18: stepped with [dt = 1], a [FixedCycleTrafficLight] returns the
    same phases, step after step, as a [FixedTimeTrafficLight] with its
    default durations, and the two stay in the same phase with the same
    timer. *)
Theorem cycle_light_matches_default (n : nat) :
  let rq := FixedCycleTrafficLight.run (replicate n 1%Q)
              FixedCycleTrafficLight.init in
  let rz := FixedTimeTrafficLight.run n
              (FixedTimeTrafficLight.init
                 FixedTimeTrafficLight.default_phase_durations) in
  rq.2 = rz.2
  ∧ FixedCycleTrafficLight.current_phase rq.1
    = FixedTimeTrafficLight.current_phase rz.1
  ∧ (FixedCycleTrafficLight.phase_timer rq.1
     == inject_Z (FixedTimeTrafficLight.phase_timer rz.1))%Q.
Proof.
  intros rq rz.
  destruct (cycle_matches_run n FixedCycleTrafficLight.init
              (FixedTimeTrafficLight.init
                 FixedTimeTrafficLight.default_phase_durations))
    as [(_ & _ & _ & _ & Hp & _ & Ht) Ho].
  - unfold cycle_matches. cbn. repeat split; lia.
  - split; [exact Ho |]. split; [exact Hp | exact Ht].
Qed.

(** X19: whatever the values of [dt], a [FixedCycleTrafficLight] never
    raises: every [step] returns a phase between 0 and 3, [is_green]
    answers for every direction name, and after [reset] the controller
    is in its initial state. *)
Theorem cycle_light_never_fails (dts : list Q) (direction : string) :
  let r := FixedCycleTrafficLight.run dts FixedCycleTrafficLight.init in
  Forall (λ o, ∃ p, o = Some p ∧ (0 ≤ p < 4)%Z) r.2
  ∧ is_Some (FixedCycleTrafficLight.is_green direction r.1)
  ∧ FixedCycleTrafficLight.reset r.1 = FixedCycleTrafficLight.init.
Proof.
  intros r.
  destruct (cycle_inv_run dts FixedCycleTrafficLight.init) as [I Hf].
  - unfold cycle_inv. cbn. repeat split; lia.
  - fold r in I, Hf. split; [exact Hf |].
    destruct I as (Hph & Hn & Hi). split.
    + unfold FixedCycleTrafficLight.is_green. rewrite Hph.
      destruct (py_index_in_range
                  (FixedCycleTrafficLight.phases FixedCycleTrafficLight.init)
                  (FixedCycleTrafficLight.current_phase r.1))
        as [ph ->]; [simpl; lia | by eexists].
    + unfold FixedCycleTrafficLight.reset. rewrite Hph, Hn. reflexivity.
Qed.

(** ** The rate of the spawn process *)

Section SpawnRate.
Import TrafficSimulation.

Lemma spawn_lanes_ids (draws : Direction → LaneType → Q)
    (ls : list (Direction * LaneType)) (s : t) :
  (next_vehicle_id s
   ≤ next_vehicle_id
       (foldl (λ s dl, spawn_lane (draws dl.1 dl.2) dl.1 dl.2 s) s ls)
   ≤ next_vehicle_id s + Z.of_nat (length ls))%Z.
Proof.
  revert s. induction ls as [| dl ls IH]; intros s; cbn [foldl length].
  - lia.
  - specialize (IH (spawn_lane (draws dl.1 dl.2) dl.1 dl.2 s)).
    destruct (spawn_lane_cases (draws dl.1 dl.2) dl.1 dl.2 s)
      as [E | [_ E]]; rewrite E in IH |- *; simpl in IH; lia.
Qed.

Lemma after_spawn_ids (draws : Direction → LaneType → Q) (s : t) :
  (next_vehicle_id s ≤ next_vehicle_id (after_spawn draws s)
   ≤ next_vehicle_id s + 8)%Z.
Proof.
  unfold after_spawn, spawn_vehicles.
  pose proof (spawn_lanes_ids draws lanes
    (mk (vehicles s) (next_vehicle_id s) (current_step s + 1)
        (metrics_collector s) (spawn_probabilities s)
        (total_passed_vehicles s))) as H.
  exact H.
Qed.

Lemma run_ids (cs : list call) (s : t) :
  (next_vehicle_id s ≤ 8 * current_step s)%Z →
  (next_vehicle_id (run cs s) ≤ 8 * current_step (run cs s))%Z.
Proof.
  revert s. induction cs as [| c cs IH]; intros s H; [exact H |].
  change (run (c :: cs) s) with (run cs (exec s c)). apply IH.
  destruct c as [p draws |]; cbn [exec]; [| simpl; lia].
  destruct (step_fields p draws s) as (-> & -> & _).
  destruct (after_spawn_frame draws s) as (-> & _).
  pose proof (after_spawn_ids draws s). lia.
Qed.

End SpawnRate.

(** X20: the spawn process hands out at most one identifier per lane and
    per tick: a step raises [next_vehicle_id] by at most 8, so in every
    reachable state the identifiers handed out, the vehicles in the map
    and the passed vehicles each number at most 8 times the tick
    counter. *)
Theorem spawn_rate_bounded (cs : list TrafficSimulation.call) (p : Z)
    (draws : Direction → LaneType → Q) :
  let s := TrafficSimulation.run cs TrafficSimulation.init in
  (TrafficSimulation.next_vehicle_id s
   ≤ TrafficSimulation.next_vehicle_id (TrafficSimulation.step p draws s)
   ≤ TrafficSimulation.next_vehicle_id s + 8)%Z
  ∧ (TrafficSimulation.next_vehicle_id s ≤ 8 * ticks cs)%Z
  ∧ (Z.of_nat (size (TrafficSimulation.vehicles s)) ≤ 8 * ticks cs)%Z
  ∧ (TrafficSimulation.total_passed_vehicles s ≤ 8 * ticks cs)%Z.
Proof.
  intros s.
  destruct (bookkeeping_init cs) as (_ & (_ & Hn & Ht) & _ & E).
  fold s in Hn, Ht, E.
  pose proof (run_ids cs TrafficSimulation.init ltac:(simpl; lia)) as Hb.
  fold s in Hb. rewrite E in Hb.
  split; [| lia].
  rewrite step_next_vehicle_id. apply after_spawn_ids.
Qed.
